(** * Twin command handlers of the Minecraft mod (TwinCommands.kt)

    A shallow embedding of [com.digitaltwins.TwinCommands]: the five command
    handlers (import, list, spawn, chat, remove), the registry of spawned
    entities they share, and the two asynchronous completions that talk to
    the remote twin service.

    Conventions.
    - Kotlin strings are modelled as byte strings ([string], UTF-8).  The
      only string operations of the handlers are tests and edits with ASCII
      patterns ([startsWith], [contains], [substring], [replace]) and
      concatenation, which act on the UTF-8 bytes exactly as they act on the
      UTF-16 code units.
    - Every side effect that leaves the handler (a chat line sent to the
      player, a call of the remote API, an audio playback) is recorded, in
      order, in a list of [Effect]s.
    - Entity objects live in a heap ([entities]); the registry holds
      references into it, so that an entity that dies on its own is seen
      dead through the registry, as in the source. *)

From Stdlib Require Import String Ascii ZArith QArith Qround Lia.
From stdpp Require Import gmap strings list.

Open Scope string_scope.
Open Scope list_scope.

(** ** Kotlin string operations used by the handlers *)

Module KString.

(** [s.startsWith(p)] *)
Definition startsWith (p s : string) : bool := String.prefix p s.

(** [s.contains(p)]: [p] occurs at some position of [s]. *)
Fixpoint contains (p s : string) : bool :=
  String.prefix p s ||
  match s with
  | EmptyString => false
  | String _ s' => contains p s'
  end.

(** [s.substring(n)]: the characters from index [n] on.  Kotlin throws when
    [n] exceeds the length; the only call site is guarded by
    [startsWith("@")], so the string is never that short there. *)
Fixpoint substring (n : nat) (s : string) : string :=
  match n, s with
  | O, _ => s
  | S n', String _ s' => substring n' s'
  | S _, EmptyString => EmptyString
  end.

(** [s.replace(old, new)] for a non-empty [old]: every occurrence of [old],
    found from left to right without overlap, is replaced by [new].  [skip]
    counts the characters of a matched occurrence still to be dropped. *)
Fixpoint replace_from (old new : string) (skip : nat) (s : string) : string :=
  match s with
  | EmptyString => EmptyString
  | String c s' =>
      match skip with
      | S k => replace_from old new k s'
      | O =>
          if String.prefix old s
          then new +:+ replace_from old new (String.length old - 1) s'
          else String c (replace_from old new 0 s')
      end
  end.

Definition replace (old new s : string) : string := replace_from old new 0 s.

(** The string a template renders for a nullable value. *)
Definition render (o : option string) : string :=
  match o with
  | Some s => s
  | None => "null"
  end.

(** [o.isNullOrEmpty()] *)
Definition isNullOrEmpty (o : option string) : bool :=
  match o with
  | None => true
  | Some EmptyString => true
  | Some _ => false
  end.

End KString.

(** ** Data *)

(** The profile record read by the handlers (fields as the source names
    them). *)
Record TwinData := {
  name : string;
  display_name : string;
  twin_id : string;
  api_endpoint : string;
  minecraft_skin_url : option string;
  minecraft_username : option string
}.

(** The reply of the chat endpoint. *)
Record ChatResponse := {
  text : string;
  audioUrl : option string
}.

(** A thrown exception, with its nullable message. *)
Record Exception := { message : option string }.

Inductive Result (A : Type) : Type :=
| Returns (v : A)
| Throws (e : Exception).
Arguments Returns {A} v.
Arguments Throws {A} e.

(** The remote service as the handlers see it, at the moment of a call. *)
Record TwinAPI := {
  downloadTwin : string -> Result TwinData;
  sendMessage : string -> string -> string -> Result ChatResponse
}.

(** Block coordinates are 32-bit integers; the handler only converts them
    to doubles and adds one half, which is exact, so coordinates are kept as
    rationals.  The yaw is only copied. *)
Record BlockPos := { bx : Z; by_ : Z; bz : Z }.

Record Player := {
  playerId : nat;
  blockPos : BlockPos;
  yaw : Q
}.

(** Modelled from the spec: the entity class [TwinEntity] is not part of the
    sources at hand.  An instance carries the name of its profile, a position
    and orientation, and a liveness flag; whether it was added to the world
    is recorded as well. *)
Record TwinEntity := {
  twinName : option string;
  posX : Q; posY : Q; posZ : Q;
  entYaw : Q; entPitch : Q;
  alive : bool;
  inWorld : bool
}.

(** References to entity objects: indices into the heap. *)
Abbreviation EntityRef := nat.

(** What leaves a handler. *)
Inductive Effect :=
| SendMessage (to : Player) (line : string)
| CallDownloadTwin (url : string)
| CallSendMessage (endpoint twinId msg : string)
| PlayAudio (url : string).

(** A coroutine launched by a handler and not yet run. *)
Inductive Task :=
| DownloadJob (player : Player) (finalUrl : string)
| ChatJob (player : Player) (twinData : TwinData) (msg : string).

(** The durable directory of profiles, [TwinStorage], is used through three
    operations; its implementation is not part of the sources at hand.
    [addTwin] returns the store it leaves behind and the exception it threw,
    if any. *)
Class TwinStorage (Storage : Type) := {
  load : Storage -> list TwinData;
  getTwinByName : string -> Storage -> option TwinData;
  addTwin : TwinData -> Storage -> Storage * option Exception
}.

(** ** Operations of the entity class *)

(** Modelled from the spec: the methods of [TwinEntity] the handlers call.
    A freshly created instance is live and not yet in the world;
    [spawnEntity] stands for [world.spawnEntity], whose result the handler
    ignores; [discard] terminates the instance. *)
Definition newEntity : TwinEntity :=
  {| twinName := None;
     posX := 0; posY := 0; posZ := 0; entYaw := 0; entPitch := 0;
     alive := true; inWorld := false |}.

Definition setTwinData (n : string) (e : TwinEntity) : TwinEntity :=
  {| twinName := Some n;
     posX := posX e; posY := posY e; posZ := posZ e;
     entYaw := entYaw e; entPitch := entPitch e;
     alive := alive e; inWorld := inWorld e |}.

Definition refreshPositionAndAngles (x y z yw pt : Q) (e : TwinEntity)
  : TwinEntity :=
  {| twinName := twinName e;
     posX := x; posY := y; posZ := z; entYaw := yw; entPitch := pt;
     alive := alive e; inWorld := inWorld e |}.

Definition spawnEntity (e : TwinEntity) : TwinEntity :=
  {| twinName := twinName e;
     posX := posX e; posY := posY e; posZ := posZ e;
     entYaw := entYaw e; entPitch := entPitch e;
     alive := alive e; inWorld := true |}.

Definition discard (e : TwinEntity) : TwinEntity :=
  {| twinName := twinName e;
     posX := posX e; posY := posY e; posZ := posZ e;
     entYaw := entYaw e; entPitch := entPitch e;
     alive := false; inWorld := false |}.

(** ** Import: the locator and its fetch URL (lines 104-121) *)

Definition usernameUrl (username : string) : string :=
  "https://replik.tech/api/minecraft/export/username/" +:+ username.

Definition finalUrl (urlOrUsername : string) : string :=
  if KString.startsWith "http" urlOrUsername then urlOrUsername
  else if KString.startsWith "@" urlOrUsername
       then usernameUrl (KString.substring 1 urlOrUsername)
  else if negb (KString.contains "/" urlOrUsername)
          && negb (KString.contains "." urlOrUsername)
       then usernameUrl urlOrUsername
  else urlOrUsername.

(** ** Chat: the playback URL of an audio reply (lines 280-286) *)

Definition fullAudioUrl (twinData : TwinData) (audio : string) : string :=
  if KString.startsWith "http" audio then audio
  else KString.replace "/api/speak" "" (api_endpoint twinData) +:+ audio.

(** ** The chat lines *)

Module Msg.
Definition downloading : string := "§e⏳ Downloading twin data...".
Definition loaded (td : TwinData) : string :=
  "§a✓ Loaded twin: " +:+ display_name td.
Definition skin (td : TwinData) : string :=
  "§7   Minecraft skin: " +:+ KString.render (minecraft_username td).
Definition importFailed (e : Exception) : string :=
  "§c✗ Failed to import twin: " +:+ KString.render (message e).
Definition noTwins : string := "§eNo twins imported. Use /twinimport <url>".
Definition listHeader : string := "§b=== Imported Twins ===".
Definition listLine (td : TwinData) (spawned : bool) : string :=
  "§f- " +:+ display_name td +:+ " "
  +:+ (if spawned then "§a(Spawned)" else "§7(Not spawned)").
Definition alreadySpawned (n : string) : string :=
  "§e" +:+ n +:+ " is already spawned! Use /twinremove first.".
Definition notFoundSpawn (n : string) : string :=
  "§cTwin not found: " +:+ n +:+ ". Use /twinimport first.".
Definition createFailed : string := "§cFailed to create twin entity".
Definition spawned (td : TwinData) : string :=
  "§a✓ Spawned " +:+ display_name td +:+ " at your location!".
Definition guidance (td : TwinData) : string :=
  "§7Right-click to chat, or use: /twin " +:+ name td +:+ " <message>".
Definition notFoundChat (n : string) : string := "§cTwin not found: " +:+ n.
Definition thinking (td : TwinData) : string :=
  "§e" +:+ display_name td +:+ " is thinking...".
Definition reply (td : TwinData) (r : ChatResponse) : string :=
  "§b[" +:+ display_name td +:+ "]§f " +:+ text r.
Definition playing : string := "§a🔊 Playing voice...".
Definition chatFailed (e : Exception) : string :=
  "§c✗ Failed to get response: " +:+ KString.render (message e).
Definition checkConnection : string :=
  "§7Check your internet connection and API endpoint.".
Definition notSpawned (n : string) : string :=
  "§e" +:+ n +:+ " is not currently spawned.".
Definition despawned (n : string) : string := "§a✓ Despawned " +:+ n.
End Msg.

(** ** The handlers *)

Section Handlers.

Context {Storage : Type} `{TwinStorage Storage}.

(** The state the handlers share: the directory, the registry
    [spawnedEntities] and the heap of entity objects. *)
Record State := {
  storage : Storage;
  spawnedEntities : gmap string EntityRef;
  entities : list TwinEntity
}.

(** What one run of a handler does: the state it leaves, the effects it
    had, and the coroutine it launched. *)
Record Run := {
  after : State;
  effects : list Effect;
  launched : option Task
}.

Definition done_ (st : State) (effs : list Effect) : Run :=
  {| after := st; effects := effs; launched := None |}.

(** [isSpawned] (lines 341-343): [spawnedEntities[name]?.isAlive == true]. *)
Definition isSpawned (n : string) (st : State) : bool :=
  match spawnedEntities st !! n with
  | Some r =>
      match entities st !! r with
      | Some e => alive e
      | None => false
      end
  | None => false
  end.

(** [importTwin] (lines 100-156), up to the launch of the download. *)
Definition importTwin (src : option Player) (urlOrUsername : string)
    (st : State) : Run :=
  match src with
  | None => done_ st []
  | Some player =>
      {| after := st;
         effects := [SendMessage player Msg.downloading];
         launched := Some (DownloadJob player (finalUrl urlOrUsername)) |}
  end.

(** [listTwins] (lines 161-175). *)
Definition listTwins (src : option Player) (st : State) : Run :=
  match src with
  | None => done_ st []
  | Some player =>
      let twins := load (storage st) in
      match twins with
      | [] => done_ st [SendMessage player Msg.noTwins]
      | _ =>
          done_ st
            (SendMessage player Msg.listHeader ::
             map (fun twin =>
                    SendMessage player
                      (Msg.listLine twin (isSpawned (name twin) st)))
                 twins)
      end
  end.

(** [spawnTwin], lines 184-201: the two checks.  Either the handler is over
    with the lines it sent, or it goes on with the profile it found. *)
Definition spawnTwin_check (player : Player) (n : string) (st : State)
  : list Effect + TwinData :=
  if isSpawned n st then inl [SendMessage player (Msg.alreadySpawned n)]
  else
    match getTwinByName n (storage st) with
    | None => inl [SendMessage player (Msg.notFoundSpawn n)]
    | Some twinData => inr twinData
    end.

(** [spawnTwin], lines 203-235: creation, placement and registration.
    [created] tells whether [ModEntities.TWIN_ENTITY.create] returned an
    entity. *)
Definition spawnTwin_create (player : Player) (n : string)
    (twinData : TwinData) (created : bool) (st : State) : Run :=
  if created then
    let pos := blockPos player in
    let twinEntity :=
      spawnEntity
        (refreshPositionAndAngles
           (inject_Z (bx pos) + (1 # 2))%Q
           (inject_Z (by_ pos))
           (inject_Z (bz pos) + (1 # 2))%Q
           (yaw player) 0%Q
           (setTwinData n newEntity)) in
    done_
      {| storage := storage st;
         spawnedEntities :=
           <[n := length (entities st)]> (spawnedEntities st);
         entities := entities st ++ [twinEntity] |}
      [SendMessage player (Msg.spawned twinData);
       SendMessage player (Msg.guidance twinData)]
  else done_ st [SendMessage player Msg.createFailed].

(** [spawnTwin] (lines 180-236). *)
Definition spawnTwin (src : option Player) (n : string) (created : bool)
    (st : State) : Run :=
  match src with
  | None => done_ st []
  | Some player =>
      match spawnTwin_check player n st with
      | inl effs => done_ st effs
      | inr twinData => spawnTwin_create player n twinData created st
      end
  end.

(** [chatWithTwin] (lines 242-310), up to the launch of the request. *)
Definition chatWithTwin (src : option Player) (n msg : string) (st : State)
  : Run :=
  match src with
  | None => done_ st []
  | Some player =>
      match getTwinByName n (storage st) with
      | None => done_ st [SendMessage player (Msg.notFoundChat n)]
      | Some twinData =>
          {| after := st;
             effects := [SendMessage player (Msg.thinking twinData)];
             launched := Some (ChatJob player twinData msg) |}
      end
  end.

(** [removeTwin] (lines 315-336). *)
Definition removeTwin (src : option Player) (n : string) (st : State) : Run :=
  match src with
  | None => done_ st []
  | Some player =>
      if negb (isSpawned n st)
      then done_ st [SendMessage player (Msg.notSpawned n)]
      else
        let st' :=
          match spawnedEntities st !! n with
          | Some r =>
              {| storage := storage st;
                 spawnedEntities := delete n (spawnedEntities st);
                 entities := alter discard r (entities st) |}
          | None => st
          end in
        done_ st' [SendMessage player (Msg.despawned n)]
  end.

(** The body of a launched coroutine, run against the service [api]
    (lines 127-155 and 262-309). *)
Definition runTask (api : TwinAPI) (t : Task) (st : State)
  : State * list Effect :=
  match t with
  | DownloadJob player url =>
      match downloadTwin api url with
      | Returns twinData =>
          let '(s', thrown) := addTwin twinData (storage st) in
          let st' := {| storage := s';
                        spawnedEntities := spawnedEntities st;
                        entities := entities st |} in
          match thrown with
          | None =>
              (st',
               CallDownloadTwin url ::
               SendMessage player (Msg.loaded twinData) ::
               (if negb (KString.isNullOrEmpty (minecraft_skin_url twinData))
                then [SendMessage player (Msg.skin twinData)]
                else []))
          | Some e =>
              (st', [CallDownloadTwin url;
                     SendMessage player (Msg.importFailed e)])
          end
      | Throws e =>
          (st, [CallDownloadTwin url;
                SendMessage player (Msg.importFailed e)])
      end
  | ChatJob player twinData msg =>
      let call :=
        CallSendMessage (api_endpoint twinData) (twin_id twinData) msg in
      match sendMessage api (api_endpoint twinData) (twin_id twinData) msg with
      | Returns response =>
          (st,
           call ::
           SendMessage player (Msg.reply twinData response) ::
           (match audioUrl response with
            | Some audio =>
                if negb (KString.isNullOrEmpty (Some audio))
                then [SendMessage player Msg.playing;
                      PlayAudio (fullAudioUrl twinData audio)]
                else []
            | None => []
            end))
      | Throws e =>
          (st, [call;
                SendMessage player (Msg.chatFailed e);
                SendMessage player Msg.checkConnection])
      end
  end.

End Handlers.

Arguments State Storage : clear implicits.
Arguments Run Storage : clear implicits.

(** ** The session: commands, completions and deaths, one after the other *)

Section Session.

Context {Storage : Type} `{TwinStorage Storage}.

(** An instance that terminates on its own: its liveness flag flips. *)
Definition terminate (e : TwinEntity) : TwinEntity :=
  {| twinName := twinName e;
     posX := posX e; posY := posY e; posZ := posZ e;
     entYaw := entYaw e; entPitch := entPitch e;
     alive := false; inWorld := inWorld e |}.

(** What can happen to a session: one of the five commands is issued, a
    launched coroutine runs against the service as it then is, or an
    instance dies. *)
Inductive Event :=
| Import (src : option Player) (locator : string)
| ListAll (src : option Player)
| Spawn (src : option Player) (n : string) (created : bool)
| Chat (src : option Player) (n msg : string)
| Remove (src : option Player) (n : string)
| Complete (api : TwinAPI) (i : nat)
| Die (r : EntityRef).

Record Session := {
  state : State Storage;
  pending : list Task
}.

Definition initial (s0 : Storage) : Session :=
  {| state := {| storage := s0; spawnedEntities := ∅; entities := [] |};
     pending := [] |}.

Definition issue (r : Run Storage) (ses : Session) : Session * list Effect :=
  ({| state := after r;
      pending := pending ses ++ option_list (launched r) |},
   effects r).

Definition step (ev : Event) (ses : Session) : Session * list Effect :=
  let st := state ses in
  match ev with
  | Import src locator => issue (importTwin src locator st) ses
  | ListAll src => issue (listTwins src st) ses
  | Spawn src n created => issue (spawnTwin src n created st) ses
  | Chat src n msg => issue (chatWithTwin src n msg st) ses
  | Remove src n => issue (removeTwin src n st) ses
  | Complete api i =>
      match pending ses !! i with
      | Some t =>
          let '(st', effs) := runTask api t st in
          ({| state := st'; pending := delete i (pending ses) |}, effs)
      | None => (ses, [])
      end
  | Die r =>
      ({| state := {| storage := storage st;
                      spawnedEntities := spawnedEntities st;
                      entities := alter terminate r (entities st) |};
          pending := pending ses |}, [])
  end.

Fixpoint run (evs : list Event) (ses : Session) : Session * list Effect :=
  match evs with
  | [] => (ses, [])
  | ev :: evs' =>
      let '(ses', effs) := step ev ses in
      let '(ses'', effs') := run evs' ses' in
      (ses'', (effs ++ effs')%list)
  end.

(** The instances of profile [n] that are live: the references of the heap
    whose entity carries the name and is alive. *)
Definition liveInstance (st : State Storage) (n : string) (r : EntityRef)
  : Prop :=
  ∃ e, entities st !! r = Some e ∧ twinName e = Some n ∧ alive e = true.

(** The registry names entities of the heap, each under its own name. *)
Definition registry_wf (st : State Storage) : Prop :=
  ∀ n r, spawnedEntities st !! n = Some r →
         ∃ e, entities st !! r = Some e ∧ twinName e = Some n.

(** Every live instance is the one the registry holds under its name. *)
Definition live_registered (st : State Storage) : Prop :=
  ∀ n r, liveInstance st n r → spawnedEntities st !! n = Some r.

(** The registry and the heap agree. *)
Definition consistent (st : State Storage) : Prop :=
  registry_wf st ∧ live_registered st.

End Session.

Arguments Session Storage : clear implicits.

(** ** A directory to run the handlers on *)

(** Modelled from the spec: the directory [TwinStorage] as the list of the
    stored profiles, with [addTwin] inserting a profile or replacing the one
    stored under the same name, and [getTwinByName] finding the profile
    stored under a name. *)
Fixpoint upsert (td : TwinData) (s : list TwinData) : list TwinData :=
  match s with
  | [] => [td]
  | x :: s' =>
      if String.eqb (name x) (name td) then td :: s' else x :: upsert td s'
  end.

#[export] Instance list_storage : TwinStorage (list TwinData) := {
  load s := s;
  getTwinByName n s := List.find (fun td => String.eqb (name td) n) s;
  addTwin td s := (upsert td s, None)
}.

(** ** The base of an endpoint, as the specification words it *)

(** Following the specification: the endpoint string with the known trailing
    path segment removed, that is, cut off when the string ends with it and
    left as it is otherwise. *)
Definition endsWith (suffix s : string) : bool :=
  (String.length suffix <=? String.length s)%nat
  && String.eqb
       (KString.substring (String.length s - String.length suffix) s) suffix.

Definition removeSuffix (suffix s : string) : string :=
  if endsWith suffix s
  then String.substring 0 (String.length s - String.length suffix) s
  else s.

Definition specAudioUrl (twinData : TwinData) (audio : string) : string :=
  if KString.startsWith "http" audio then audio
  else removeSuffix "/api/speak" (api_endpoint twinData) +:+ audio.

(** ** The registry write, as the specification words it *)

(** Following the specification: an insert-if-absent, which writes the
    entry of a name only when the registry has none for it. *)
Definition insertIfAbsent (n : string) (r : EntityRef)
    (reg : gmap string EntityRef) : gmap string EntityRef :=
  match reg !! n with
  | Some _ => reg
  | None => <[n := r]> reg
  end.

(** ** What a successful spawn leaves *)

(** The entity a successful spawn by [player] for [n] creates. *)
Definition placed (player : Player) (n : string) : TwinEntity :=
  {| twinName := Some n;
     posX := (inject_Z (bx (blockPos player)) + (1 # 2))%Q;
     posY := inject_Z (by_ (blockPos player));
     posZ := (inject_Z (bz (blockPos player)) + (1 # 2))%Q;
     entYaw := yaw player;
     entPitch := 0%Q;
     alive := true;
     inWorld := true |}.

(** The two lines a successful spawn sends. *)
Definition spawnedLines (player : Player) (td : TwinData) : list Effect :=
  [SendMessage player (Msg.spawned td); SendMessage player (Msg.guidance td)].

(** ** Where the requester stands, as the specification words it *)

(** Following the specification: the requester's current location and
    orientation, exact coordinates with a yaw and a pitch.  Of these the
    handler reads the block position (line 215), the block the coordinates
    fall in, and the yaw (line 220); the pitch it sets is the constant of
    line 221. *)
Record Stance := {
  atX : Q; atY : Q; atZ : Q;
  lookYaw : Q; lookPitch : Q
}.

(** The requester as the handler sees a player in that stance. *)
Definition playerAt (id : nat) (s : Stance) : Player :=
  {| playerId := id;
     blockPos := {| bx := Qfloor (atX s); by_ := Qfloor (atY s);
                    bz := Qfloor (atZ s) |};
     yaw := lookYaw s |}.

(** ** Sample data for the concrete runs *)

Module Sample.

Definition steve : Player :=
  {| playerId := 1;
     blockPos := {| bx := 10; by_ := 64; bz := (-3) |};
     yaw := 90 |}.

Definition alex : Player :=
  {| playerId := 2;
     blockPos := {| bx := 0; by_ := 70; bz := 5 |};
     yaw := 0 |}.

Definition maya : TwinData :=
  {| name := "maya"; display_name := "Maya"; twin_id := "twin-42";
     api_endpoint := "https://replik.tech/api/speak";
     minecraft_skin_url := None; minecraft_username := None |}.

(** A profile whose endpoint repeats the chat path. *)
Definition echo : TwinData :=
  {| name := "echo"; display_name := "Echo"; twin_id := "twin-7";
     api_endpoint := "https://h/api/speak/api/speak";
     minecraft_skin_url := None; minecraft_username := None |}.

(** A service that cannot be reached. *)
Definition unreachable : TwinAPI :=
  {| downloadTwin := fun _ => Throws {| message := Some "Connection refused" |};
     sendMessage := fun _ _ _ =>
       Throws {| message := Some "Connection refused" |} |}.

(** A service that answers every message with a spoken reply. *)
Definition speaking (audio : string) : TwinAPI :=
  {| downloadTwin := fun _ => Returns maya;
     sendMessage := fun _ _ _ =>
       Returns {| text := "hello"; audioUrl := Some audio |} |}.

(** A session state with [maya] imported and nothing spawned. *)
Definition imported : State (list TwinData) :=
  {| storage := [maya]; spawnedEntities := ∅; entities := [] |}.

(** A state whose registry still names an instance of [maya] that has
    died. *)
Definition stale : State (list TwinData) :=
  {| storage := [maya];
     spawnedEntities := {[ "maya" := 0%nat ]};
     entities := [terminate (spawnEntity (setTwinData "maya" newEntity))] |}.

End Sample.

(** ** More sample data *)

Module SampleMore.

(** A profile whose endpoint does not have the chat path. *)
Definition bare : TwinData :=
  {| name := "bare"; display_name := "Bare"; twin_id := "twin-9";
     api_endpoint := "https://twins.example/chat";
     minecraft_skin_url := Some "https://skins.example/bare.png";
     minecraft_username := Some "bare_mc" |}.

(** A requester off the centre of the block, looking down. *)
Definition lookingDown : Stance :=
  {| atX := 51 # 5; atY := 64; atZ := (-27) # 10;
     lookYaw := 90; lookPitch := 30 |}.

(** A state with [maya] spawned by a player and still alive. *)
Definition spawned : State (list TwinData) :=
  after (spawnTwin (Some Sample.steve) "maya" true Sample.imported).

End SampleMore.

(** ** Notions used to state what the handlers keep *)

(** An entity [e'] is what became of [e]: it has the name, the place and
    the orientation of [e], and it lives only if [e] did. *)
Definition becameOf (e e' : TwinEntity) : Prop :=
  twinName e' = twinName e
  ∧ posX e' = posX e ∧ posY e' = posY e ∧ posZ e' = posZ e
  ∧ entYaw e' = entYaw e ∧ entPitch e' = entPitch e
  ∧ (alive e' = true → alive e = true).

(** The player whose command launched a task. *)
Definition taskOwner (t : Task) : Player :=
  match t with
  | DownloadJob player _ => player
  | ChatJob player _ _ => player
  end.

(** Every chat line among [effs] is sent to [player]. *)
Definition addressedTo (player : Player) (effs : list Effect) : Prop :=
  ∀ to line, In (SendMessage to line) effs → to = player.

(** * The web application

    The personality endpoint (route.ts), the clone browser and the photo
    uploader (CloneBrowser.tsx).  Calls that leave the process (the
    database, the face-mesh hook, the network) are inputs of the handlers,
    each either returning or throwing; what a handler calls is recorded in
    order. *)

(** ** JavaScript values as the route and the components use them *)

Module JS.

(** JavaScript strings are sequences of UTF-16 code units. *)
Abbreviation jstring := (list N).

(** A literal of the source (all of them ASCII). *)
Definition lit (s : string) : jstring :=
  map N_of_ascii (list_ascii_of_string s).

Definition newline : jstring := [10%N].

(** [parts.join(sep)] *)
Fixpoint join (sep : jstring) (parts : list jstring) : jstring :=
  match parts with
  | [] => []
  | [p] => p
  | p :: rest => p ++ sep ++ join sep rest
  end.

(** [hay.startsWith(needle)] *)
Fixpoint startsWith (needle hay : jstring) : bool :=
  match needle, hay with
  | [], _ => true
  | _ :: _, [] => false
  | a :: needle', b :: hay' => (a =? b)%N && startsWith needle' hay'
  end.

(** [hay.includes(needle)] *)
Fixpoint includes (needle hay : jstring) : bool :=
  startsWith needle hay ||
  match hay with
  | [] => false
  | _ :: hay' => includes needle hay'
  end.

(** [s === t] on strings. *)
Definition strictEq (s t : jstring) : bool := bool_decide (s = t).

(** [s || d] on strings: the empty string is falsy. *)
Definition orElse (s d : jstring) : jstring :=
  match s with
  | [] => d
  | _ :: _ => s
  end.

(** Values whose shape the code does not fix (a field of a request body, a
    property of a caught error, a row of the database) with what the code
    does with them: it tests their truthiness, compares them with a string,
    and renders them in a template. *)
Class Values (Value : Type) := {
  truthy : Value → bool;
  asString : Value → option jstring;
  toStr : Value → jstring
}.

(** The objects handed to [NextResponse.json] and to the database.
    [JStringify j] is the string [JSON.stringify(j)]; [JVal v] is a value
    passed on as it came. *)
#[warnings="-register-all"] Inductive Json (Value : Type) : Type :=
| JNull
| JBool (b : bool)
| JStr (s : jstring)
| JArr (items : list (Json Value))
| JObj (fields : list (string * Json Value))
| JStringify (j : Json Value)
| JVal (v : Value).
Arguments JNull {Value}.
Arguments JBool {Value} b.
Arguments JStr {Value} s.
Arguments JArr {Value} items.
Arguments JObj {Value} fields.
Arguments JStringify {Value} j.
Arguments JVal {Value} v.

(** A caught error, with the properties the handlers read:
    [error.message], [error.code] and [error.response?.data?.error]. *)
Record JsError (Value : Type) := {
  e_message : Value;
  e_code : Value;
  e_responseError : Value
}.
Arguments e_message {Value} j.
Arguments e_code {Value} j.
Arguments e_responseError {Value} j.

(** The outcome of a call that may throw. *)
Inductive Attempt (Value A : Type) : Type :=
| Done (a : A)
| Raised (e : JsError Value).
Arguments Done {Value A} a.
Arguments Raised {Value A} e.

(** The values used in the concrete runs: [undefined] and strings. *)
Inductive Plain := Undefined | Str (s : jstring).

#[export] Instance plain_values : Values Plain := {
  truthy v := match v with Str (_ :: _) => true | _ => false end;
  asString v := match v with Str s => Some s | Undefined => None end;
  toStr v := match v with Str s => s | Undefined => lit "undefined" end
}.

(** Lower case of the letters A to Z, other code units unchanged; it stands
    in for [toLowerCase] in the concrete runs. *)
Definition asciiLower (s : jstring) : jstring :=
  map (fun c => if ((65 <=? c) && (c <=? 90))%N then (c + 32)%N else c) s.

(** Upper case of the letters a to z. *)
Definition asciiUpper (s : jstring) : jstring :=
  map (fun c => if ((97 <=? c) && (c <=? 122))%N then (c - 32)%N else c) s.

End JS.

(** ** The personality route (route.ts) *)

Module Route.

Import JS.

(** *** The UUID test of line 32

    The expression is a sequence of character classes, each repeated a fixed
    number of times, anchored at both ends. *)
Definition Piece : Type := (N → bool) * nat.

(** The class [[0-9a-f]] under the flag [i]. *)
Definition isHex (c : N) : bool :=
  ((48 <=? c) && (c <=? 57) || (97 <=? c) && (c <=? 102)
   || (65 <=? c) && (c <=? 70))%N.

(** The character [-]. *)
Definition isDash (c : N) : bool := (c =? 45)%N.

Definition uuidRegex : list Piece :=
  [(isHex, 8); (isDash, 1); (isHex, 4); (isDash, 1); (isHex, 4);
   (isDash, 1); (isHex, 4); (isDash, 1); (isHex, 12)].

(** Exactly [k] code units of the class, then the rest. *)
Fixpoint matchRep (p : N → bool) (k : nat) (s : jstring) : option jstring :=
  match k with
  | O => Some s
  | S k' =>
      match s with
      | c :: s' => if p c then matchRep p k' s' else None
      | [] => None
      end
  end.

Fixpoint matchSeq (pieces : list Piece) (s : jstring) : option jstring :=
  match pieces with
  | [] => Some s
  | (p, k) :: pieces' =>
      match matchRep p k s with
      | Some rest => matchSeq pieces' rest
      | None => None
      end
  end.

(** [regex.test(s)] for an expression anchored with [^] and [$]. *)
Definition test (pieces : list Piece) (s : jstring) : bool :=
  match matchSeq pieces s with
  | Some [] => true
  | _ => false
  end.

Definition adminId : jstring := lit "00000000-0000-0000-0000-000000000001".

Section Handlers.

Context {Value : Type} `{Values Value}.

Record Response := {
  status : nat;
  body : Json Value
}.

(** [NextResponse.json(body, { status })]; the status is 200 when none is
    given. *)
Definition json (st : nat) (b : Json Value) : Response :=
  {| status := st; body := b |}.

Definition error (msg : string) : Json Value :=
  JObj [("error", JStr (lit msg))].

(** A row of the table of memories. *)
Record Memory := {
  category : jstring;
  content : jstring
}.

(** The calls to the database, as issued.  In [Update] the second argument
    is the object whose [JSON.stringify] is stored as [personalityData]. *)
Inductive DbCall :=
| FindUnique (id : jstring)
| Update (id : Value) (personalityData : Json Value)
| FindMany (userId : Value).

(** The database as the route sees it at the moment of a call. *)
Record Prisma := {
  findUnique : jstring → Attempt Value (option Value);
  update : Value → Json Value → option (JsError Value);
  findMany : Value → Attempt Value (list Memory)
}.

(** The mock data of the admin user (lines 50-63); [now] is
    [new Date().toISOString()]. *)
Definition adminData (now : jstring) : Json Value :=
  JObj [("personalityData",
         JStringify
           (JObj [("stories", JStr (lit "I like to test things"));
                  ("habits", JStr (lit "I test features regularly"));
                  ("reactions", JStr (lit "I stay calm when debugging"));
                  ("background", JStr (lit "Admin test user"))]));
        ("audioUrl", JNull);
        ("voiceModelId", JNull);
        ("faceData", JNull);
        ("name", JStr (lit "Admin User"));
        ("email", JStr (lit "admin@replik.local"));
        ("createdAt", JStr now)].

(** [GET] (lines 19-91); [userId] is [searchParams.get('userId')].  The
    lookup answers [null] ([None]) or a value, and line 79 tests that
    value's truthiness. *)
Definition GET (prisma : Prisma) (now : jstring) (userId : option jstring)
  : Response * list DbCall :=
  match userId with
  | None | Some [] => (json 400 (error "User ID required"), [])
  | Some userId =>
      if negb (test uuidRegex userId) then
        (json 400
           (JObj [("error", JStr (lit "Invalid user ID format"));
                  ("details",
                   JStr (lit "Expected UUID, got: " ++ take 50 userId));
                  ("hint",
                   JStr (lit "Check that clone.userId (not username) is being passed"))]),
         [])
      else if strictEq userId adminId then (json 200 (adminData now), [])
      else
        match findUnique prisma userId with
        | Done (Some user) =>
            if negb (truthy user) then
              (json 404 (error "User not found"), [FindUnique userId])
            else (json 200 (JVal user), [FindUnique userId])
        | Done None => (json 404 (error "User not found"), [FindUnique userId])
        | Raised e =>
            (json 500
               (JObj [("error", JStr (lit "Failed to fetch personality"));
                      ("details", JVal (e_message e))]),
             [FindUnique userId])
        end
  end.

(** The mock personality of lines 145-151. *)
Definition mockPersonality : Json Value :=
  JObj [("traits",
         JArr [JStr (lit "curious"); JStr (lit "analytical");
               JStr (lit "friendly")]);
        ("quirks",
         JArr [JStr (lit "uses technical jargon");
               JStr (lit "tells stories")]);
        ("conversationStyle", JStr (lit "casual but informative"));
        ("interests",
         JArr [JStr (lit "technology"); JStr (lit "learning")]);
        ("background",
         JStr (lit "Tech enthusiast with diverse interests"))].

(** The contents of the memories of one of two categories, joined by line
    breaks (lines 169-171). *)
Definition ofCategory (a b : string) (memories : list Memory) : jstring :=
  join newline
    (map content
       (List.filter
          (fun m => strictEq (category m) (lit a)
                    || strictEq (category m) (lit b))
          memories)).

(** The personality built from the memories (lines 175-180). *)
Record Personality := {
  stories : jstring;
  habits : jstring;
  reactions : jstring;
  background : jstring
}.

Definition buildPersonality (memories : list Memory) : Personality :=
  let storiesMem := ofCategory "story" "stories" memories in
  let habitsMem := ofCategory "habit" "habits" memories in
  let reactionsMem := ofCategory "reaction" "reactions" memories in
  {| stories := orElse storiesMem (lit "N/A");
     habits := orElse habitsMem (lit "N/A");
     reactions := orElse reactionsMem (lit "N/A");
     background :=
       lit "This person's stories: " ++ storiesMem
       ++ lit ". Their habits: " ++ habitsMem
       ++ lit ". How they react: " ++ reactionsMem |}.

Definition personalityJson (p : Personality) : Json Value :=
  JObj [("stories", JStr (stories p));
        ("habits", JStr (habits p));
        ("reactions", JStr (reactions p));
        ("background", JStr (background p))].

(** The answer of the [catch] of [POST] (lines 194-208). *)
Definition saveFailed (e : JsError Value) : Response :=
  json 500
    (JObj [("error", JStr (lit "Failed to save personality"));
           ("details", JVal (e_message e));
           ("code", JVal (e_code e))]).

(** Store a personality and answer (lines 153-161 and 184-192). *)
Definition storeAndAnswer (prisma : Prisma) (userId : Value)
    (personality : Json Value) (msg : string) (calls : list DbCall)
  : Response * list DbCall :=
  match update prisma userId personality with
  | Some e => (saveFailed e, calls ++ [Update userId personality])
  | None =>
      (json 200 (JObj [("personality", personality);
                       ("message", JStr (lit msg))]),
       calls ++ [Update userId personality])
  end.

(** [POST] (lines 96-210).  [parsed] is the outcome of reading the body and
    taking its fields [userId] and [personalityData]; [apiKey] is
    [process.env.ANTHROPIC_API_KEY]. *)
Definition POST (prisma : Prisma) (apiKey : option jstring)
    (parsed : Attempt Value (Value * Value)) : Response * list DbCall :=
  match parsed with
  | Raised e => (saveFailed e, [])
  | Done (userId, personalityData) =>
      if negb (truthy userId) then (json 400 (error "User ID required"), [])
      else
        let isAdminUser :=
          match asString userId with
          | Some s => strictEq s adminId
          | None => false
          end in
        if truthy personalityData then
          let saved :=
            json 200 (JObj [("success", JBool true);
                            ("message",
                             JStr (lit "Personality data saved"))]) in
          if negb isAdminUser then
            match update prisma userId (JVal personalityData) with
            | Some e => (saveFailed e, [Update userId (JVal personalityData)])
            | None => (saved, [Update userId (JVal personalityData)])
            end
          else (saved, [])
        else
          match findMany prisma userId with
          | Raised e => (saveFailed e, [FindMany userId])
          | Done memories =>
              match memories with
              | [] =>
                  (json 400 (error "No context data available"),
                   [FindMany userId])
              | _ :: _ =>
                  match apiKey with
                  | None | Some [] =>
                      storeAndAnswer prisma userId mockPersonality
                        "Mock personality created (Anthropic API key not configured)"
                        [FindMany userId]
                  | Some (_ :: _) =>
                      storeAndAnswer prisma userId
                        (personalityJson (buildPersonality memories))
                        "Personality profile created successfully"
                        [FindMany userId]
                  end
              end
          end
  end.

End Handlers.

Arguments Response Value : clear implicits.
Arguments DbCall Value : clear implicits.
Arguments Prisma Value : clear implicits.

End Route.

(** ** The clone browser (CloneBrowser.tsx, lines 1-174) *)

Module Browser.

Import JS.

Record Clone := {
  userId : jstring;
  username : jstring;
  name : option jstring;
  bio : option jstring;
  createdAt : jstring;
  isPublic : bool
}.

Section Search.

(** [String.prototype.toLowerCase] *)
Variable toLowerCase : jstring → jstring.

(** The test of the filter (lines 75-78); a clone without name is matched
    through its username only. *)
Definition matches (searchQuery : jstring) (clone : Clone) : bool :=
  includes (toLowerCase searchQuery) (toLowerCase (username clone))
  || match name clone with
     | Some nm => includes (toLowerCase searchQuery) (toLowerCase nm)
     | None => false
     end.

Definition filteredClones (clones : list Clone) (searchQuery : jstring)
  : list Clone :=
  List.filter (matches searchQuery) clones.

End Search.

End Browser.

(** ** The photo uploader (CloneBrowser.tsx, lines 176-723) *)

Module Uploader.

Import JS.

Section Component.

Context {Value : Type} `{Values Value}.

(** What the browser and the libraries hand over is kept as it comes: image
    blobs, landmarks, contours of the mock face and of the personalised
    face. *)
Variables (Blob Landmark Contours Face : Type).

(** A photo taken by the camera: the file [photo-<index>.jpg] made from the
    blob. *)
Record File := {
  index : nat;
  blob : Blob
}.

Record Contexts := {
  story : jstring;
  habit : jstring;
  reaction : jstring
}.

(** The state of the component; [stream] tells whether [streamRef] holds a
    camera stream. *)
Record UState := {
  photos : list (option File);
  uploading : bool;
  progress : nat;
  processingFace : bool;
  contexts : Contexts;
  captureMode : bool;
  currentPhotoIndex : nat;
  stream : bool
}.

Definition initialState : UState :=
  {| photos := [None; None; None; None; None];
     uploading := false;
     progress := 0;
     processingFace := false;
     contexts := {| story := []; habit := []; reaction := [] |};
     captureMode := false;
     currentPhotoIndex := 0;
     stream := false |}.

(** [copy[i] = x] on a copy of an array: within the array the slot is
    replaced; beyond it JavaScript lengthens the array up to the slot.  The
    second case is never met by the component: the index stays below the
    five slots. *)
Definition setSlot {A : Type} (i : nat) (x : A) (l : list (option A))
  : list (option A) :=
  if decide (i < length l) then <[i := Some x]> l
  else l ++ replicate (i - length l) None ++ [Some x].

(** What the component does to the outside. *)
Inductive UEffect :=
| Alert (text : jstring)
| ProcessFaceImages (files : list File)
| FetchMockFace
| PostUpdateUser (userId : jstring) (faceContours : Face) (ctx : Contexts)
| OnCompleteLater (userId : jstring).

(** [startCamera] (lines 215-243); [granted] tells whether the camera
    stream was obtained. *)
Definition startCamera (granted : bool) (st : UState)
  : UState * list UEffect :=
  if granted then
    ({| photos := photos st; uploading := uploading st;
        progress := progress st; processingFace := processingFace st;
        contexts := contexts st;
        captureMode := true; currentPhotoIndex := 0; stream := true |},
     [])
  else (st, [Alert (lit "Please allow camera access to take selfies.")]).

(** [stopCamera] (lines 290-297). *)
Definition stopCamera (st : UState) : UState :=
  if stream st then
    {| photos := photos st; uploading := uploading st;
       progress := progress st; processingFace := processingFace st;
       contexts := contexts st;
       captureMode := false; currentPhotoIndex := 0; stream := false |}
  else st.

(** What [capturePhoto] finds at the click: the video and canvas elements,
    the ready state of the video and the drawing context; and the blob that
    the canvas hands later to the callback of [toBlob]. *)
Record Shot := {
  mounted : bool;
  readyState : nat;
  hasContext : bool;
  taken : option Blob
}.

(** The callback given to [canvas.toBlob] (lines 268-285).  It is a closure
    of the render in which the button was clicked: the [photos] and the
    [currentPhotoIndex] it reads are those of that render, whatever the
    state is when the blob arrives. *)
Record Callback := {
  seenPhotos : list (option File);
  seenIndex : nat;
  handed : option Blob
}.

(** [capturePhoto] (lines 245-288), up to the call of [canvas.toBlob]: no
    state is set, and the callback is left to be called. *)
Definition capturePhoto (shot : Shot) (st : UState)
  : list UEffect * option Callback :=
  if negb (mounted shot) then ([], None)
  else if (readyState shot <? 2)%nat then
    ([Alert (lit "Video is loading, please wait a moment...")], None)
  else if negb (hasContext shot) then ([], None)
  else
    ([], Some {| seenPhotos := photos st;
                 seenIndex := currentPhotoIndex st;
                 handed := taken shot |}).

(** The callback at work (lines 268-285), in the state [st] of the component
    when the blob arrives.  [setPhotos] replaces the slots by the copy made
    of the photos the closure saw; [stopCamera] reads [streamRef] as it is
    now. *)
Definition photoTaken (cb : Callback) (st : UState) : UState :=
  match handed cb with
  | None => st
  | Some b =>
      let file := {| index := seenIndex cb; blob := b |} in
      let st' :=
        {| photos := setSlot (seenIndex cb) file (seenPhotos cb);
           uploading := uploading st;
           progress := progress st; processingFace := processingFace st;
           contexts := contexts st;
           captureMode := captureMode st;
           currentPhotoIndex := currentPhotoIndex st;
           stream := stream st |} in
      if (seenIndex cb <? 4)%nat then
        {| photos := photos st'; uploading := uploading st';
           progress := progress st';
           processingFace := processingFace st';
           contexts := contexts st';
           captureMode := captureMode st';
           currentPhotoIndex := seenIndex cb + 1;
           stream := stream st' |}
      else stopCamera st'
  end.

(** The result of the face-mesh hook. *)
Record MediapipeResult := {
  landmarks : option (list Landmark);
  contours : Value
}.

(** What [handleSubmit] calls: the face-mesh hook and its readiness, the
    fetch of the mock face (lines 352-355), the fitting of the landmarks to
    the mock face with the measurements logged from its result (lines
    369-402), and the upload. *)
Record Services := {
  isReady : bool;
  processFaceImages : list File → Attempt Value (option MediapipeResult);
  fetchMockFace : Attempt Value Contours;
  personalise : list Landmark → Contours → Attempt Value Face;
  postUpdateUser : jstring → Face → Contexts → option (JsError Value)
}.

(** An error made with [new Error(msg)]. *)
Variable newError : jstring → JsError Value.

(** The alert of the [catch] (line 436). *)
Definition failedAlert (e : JsError Value) : UEffect :=
  Alert (lit "Failed to process: "
         ++ (if truthy (e_responseError e) then toStr (e_responseError e)
             else toStr (e_message e))
         ++ lit ". Please try again.").

Definition withFlags (st : UState) (up : bool) (pr : nat) (pf : bool)
  : UState :=
  {| photos := photos st; uploading := up; progress := pr;
     processingFace := pf; contexts := contexts st;
     captureMode := captureMode st;
     currentPhotoIndex := currentPhotoIndex st; stream := stream st |}.

(** The [catch] of [handleSubmit] (lines 432-439); [pr] is the progress
    reached. *)
Definition failed (st : UState) (pr : nat) (e : JsError Value)
    (effs : list UEffect) : UState * list UEffect :=
  (withFlags st false pr false, effs ++ [failedAlert e]).

(** The photos that are there ([photos.filter(p => p !== null)]). *)
Definition validPhotos (st : UState) : list File :=
  omap (fun p => p) (photos st).

(** [photos.some(p => !p)]: a slot is still empty. *)
Definition missingPhoto (st : UState) : bool :=
  existsb (fun p => match p with None => true | Some _ => false end)
    (photos st).

(** [handleSubmit] (lines 305-440), up to the pause before [onComplete]. *)
Definition handleSubmit (sv : Services) (userId : jstring) (st : UState)
  : UState * list UEffect :=
  if missingPhoto st
  then (st, [Alert (lit "Please capture or upload all 5 photos")])
  else if negb (isReady sv) then
    failed st 0 (newError (lit "MediaPipe not ready"))
      [Alert (lit "Face detection system is still loading. Please wait a moment and try again.")]
  else
    let call := ProcessFaceImages (validPhotos st) in
    match processFaceImages sv (validPhotos st) with
    | Raised e => failed st 0 e [call]
    | Done None =>
        failed st 0 (newError (lit "MediaPipe face detection failed"))
          [call;
           Alert (lit "Could not detect your face in the photos. Please:"
                  ++ newline
                  ++ lit "1. Make sure your face is clearly visible"
                  ++ newline ++ lit "2. Use well-lit photos"
                  ++ newline ++ lit "3. Face the camera directly")]
    | Done (Some result) =>
        match landmarks result with
        | Some lms =>
            if (length lms <? 468)%nat then
              failed st 0 (newError (lit "Invalid MediaPipe landmarks"))
                [call;
                 Alert (lit "Face detection incomplete. Please try again with clearer photos.")]
            else
              match fetchMockFace sv with
              | Raised e => failed st 0 e [call; FetchMockFace]
              | Done mockFaceContours =>
                  match personalise sv lms mockFaceContours with
                  | Raised e => failed st 0 e [call; FetchMockFace]
                  | Done personalizedFace =>
                      let post :=
                        PostUpdateUser userId personalizedFace
                          (contexts st) in
                      match postUpdateUser sv userId personalizedFace
                              (contexts st) with
                      | Some e => failed st 50 e [call; FetchMockFace; post]
                      | None =>
                          (withFlags st true 100 false,
                           [call; FetchMockFace; post;
                            OnCompleteLater userId])
                      end
                  end
              end
        | None =>
            failed st 0 (newError (lit "Invalid MediaPipe landmarks"))
              [call;
               Alert (lit "Face detection incomplete. Please try again with clearer photos.")]
        end
    end.

(** Every step of a submission goes through: the photos are all there, the
    face mesh is ready and finds at least 468 landmarks, the mock face is
    fetched and fitted, and the upload is accepted. *)
Definition submitSucceeds (sv : Services) (userId : jstring) (st : UState)
  : Prop :=
  missingPhoto st = false
  ∧ isReady sv = true
  ∧ ∃ result lms mock face,
      processFaceImages sv (validPhotos st) = Done (Some result)
      ∧ landmarks result = Some lms
      ∧ (468 ≤ length lms)%nat
      ∧ fetchMockFace sv = Done mock
      ∧ personalise sv lms mock = Done face
      ∧ postUpdateUser sv userId face (contexts st) = None.

(** The callback of the pause (lines 428-431): the upload is over. *)
Definition completed (st : UState) : UState :=
  withFlags st false (progress st) (processingFace st).

(** The component together with the callbacks of [toBlob] that are still
    to be called. *)
Record Booth := {
  ui : UState;
  waiting : list Callback
}.

(** What happens around the camera: the stream is granted or refused, the
    capture button is clicked, the blob of an earlier click arrives (the
    callback at position [i] among those waiting is called), the camera is
    stopped.  The component is rendered again after each of them, so a
    click sees the state as the events before it left it. *)
Inductive CameraEvent :=
| Start (granted : bool)
| Capture (shot : Shot)
| Deliver (i : nat)
| Stop.

Definition camera (ev : CameraEvent) (b : Booth) : Booth :=
  match ev with
  | Start granted =>
      {| ui := fst (startCamera granted (ui b)); waiting := waiting b |}
  | Capture shot =>
      match snd (capturePhoto shot (ui b)) with
      | Some cb => {| ui := ui b; waiting := waiting b ++ [cb] |}
      | None => b
      end
  | Deliver i =>
      match waiting b !! i with
      | Some cb =>
          {| ui := photoTaken cb (ui b); waiting := delete i (waiting b) |}
      | None => b
      end
  | Stop => {| ui := stopCamera (ui b); waiting := waiting b |}
  end.

(** The slots and the camera are in order: five slots, the index of the
    next photo among them, capture mode on exactly while the stream is
    held. *)
Definition steady (st : UState) : Prop :=
  length (photos st) = 5 ∧ (currentPhotoIndex st ≤ 4)%nat
  ∧ captureMode st = stream st.

(** Every photo sits in the slot its name gives. *)
Definition named (slots : list (option File)) : Prop :=
  ∀ i f, slots !! i = Some (Some f) → index f = i.

(** What a waiting callback saw is in order. *)
Definition settled (cb : Callback) : Prop :=
  length (seenPhotos cb) = 5 ∧ (seenIndex cb ≤ 4)%nat
  ∧ named (seenPhotos cb).

(** A shot that succeeds. *)
Definition goodShot (b : Blob) : Shot :=
  {| mounted := true; readyState := 4; hasContext := true; taken := Some b |}.

End Component.

Arguments Services Value Blob Landmark Contours Face : clear implicits.
Arguments MediapipeResult Value Landmark : clear implicits.
Arguments index {Blob} f.
Arguments blob {Blob} f.
Arguments photos {Blob} u.
Arguments uploading {Blob} u.
Arguments progress {Blob} u.
Arguments processingFace {Blob} u.
Arguments contexts {Blob} u.
Arguments captureMode {Blob} u.
Arguments currentPhotoIndex {Blob} u.
Arguments stream {Blob} u.
Arguments mounted {Blob} s.
Arguments readyState {Blob} s.
Arguments hasContext {Blob} s.
Arguments taken {Blob} s.
Arguments landmarks {Value Landmark} m.
Arguments contours {Value Landmark} m.
Arguments isReady {Value Blob Landmark Contours Face} s.
Arguments processFaceImages {Value Blob Landmark Contours Face} s files.
Arguments fetchMockFace {Value Blob Landmark Contours Face} s.
Arguments personalise {Value Blob Landmark Contours Face} s lms mock.
Arguments postUpdateUser {Value Blob Landmark Contours Face} s userId face ctx.
Arguments steady {Blob} st.
Arguments named {Blob} slots.
Arguments settled {Blob} cb.
Arguments seenPhotos {Blob} c.
Arguments seenIndex {Blob} c.
Arguments handed {Blob} c.
Arguments ui {Blob} b.
Arguments waiting {Blob} b.
Arguments photoTaken {Blob} cb st.
Arguments Deliver {Blob} i.
Arguments Alert {Blob Face} text.
Arguments ProcessFaceImages {Blob Face} files.
Arguments FetchMockFace {Blob Face}.
Arguments PostUpdateUser {Blob Face} userId faceContours ctx.
Arguments OnCompleteLater {Blob Face} userId.
Arguments Start {Blob} granted.
Arguments Capture {Blob} shot.
Arguments Stop {Blob}.
Arguments startCamera {Blob Face} granted st.
Arguments stopCamera {Blob} st.
Arguments capturePhoto {Blob Face} shot st.
Arguments camera {Blob} Face ev b.
Arguments goodShot {Blob} b.
Arguments validPhotos {Blob} st.
Arguments missingPhoto {Blob} st.
Arguments withFlags {Blob} st up pr pf.
Arguments completed {Blob} st.
Arguments failedAlert {Value H Blob Face} e.
Arguments failed {Value H Blob Face} st pr e effs.
Arguments handleSubmit {Value H Blob Landmark Contours Face} newError sv userId st.
Arguments submitSucceeds {Value Blob Landmark Contours Face} sv userId st.

End Uploader.

(** ** Facts about the string operations *)

Section StringFacts.

Lemma append_String (c : ascii) (s t : string) :
  String c s +:+ t = String c (s +:+ t).
Proof. reflexivity. Qed.

Lemma append_Empty (t : string) : EmptyString +:+ t = t.
Proof. reflexivity. Qed.

Lemma prefix_app_iff (p s : string) :
  String.prefix p s = true ↔ ∃ t, s = p +:+ t.
Proof.
  revert s. induction p as [|a p IH]; intros s.
  - destruct s; simpl; split; eauto.
  - destruct s as [|b s]; simpl.
    + split; [discriminate | intros [t Ht]; discriminate].
    + destruct (ascii_dec a b) as [->|Hne].
      * rewrite IH. split; intros [t Ht]; exists t;
          rewrite append_String in *; congruence.
      * split; [discriminate |].
        intros [t Ht]. rewrite append_String in Ht. congruence.
Qed.

Lemma contains_app_iff (p s : string) :
  KString.contains p s = true ↔ ∃ s1 s2, s = s1 +:+ p +:+ s2.
Proof.
  induction s as [|c s IH]; cbn [KString.contains].
  - rewrite orb_false_r, prefix_app_iff. split.
    + intros [t Ht]. exists EmptyString, t. exact Ht.
    + intros [s1 [s2 Hs]]. destruct s1.
      * rewrite append_Empty in Hs. eauto.
      * rewrite append_String in Hs. discriminate.
  - rewrite orb_true_iff, IH, prefix_app_iff. split.
    + intros [[t Ht] | [s1 [s2 Hs]]].
      * exists EmptyString, t. exact Ht.
      * exists (String c s1), s2. rewrite append_String. congruence.
    + intros [s1 [s2 Hs]]. destruct s1 as [|c' s1].
      * left. rewrite append_Empty in Hs. eauto.
      * right. rewrite append_String in Hs. exists s1, s2. congruence.
Qed.

(** A pattern found at the head of [b +:+ t] lies within [b] or runs over
    its end into [t]. *)
Lemma prefix_app_split (p b t : string) :
  String.prefix p (b +:+ t) = true →
  String.prefix p b = true ∨
  (String.length b < String.length p ∧
   String.prefix (KString.substring (String.length b) p) t = true).
Proof.
  revert b. induction p as [|a p IH]; intros b Hp.
  - left. destruct b; reflexivity.
  - destruct b as [|c b].
    + right. rewrite append_Empty in Hp. simpl. split; [lia | exact Hp].
    + rewrite append_String in Hp. simpl in Hp |- *.
      destruct (ascii_dec a c) as [->|Hne]; [|discriminate].
      destruct (IH b Hp) as [Hl | [Hlen Hr]]; [left | right]; auto.
      split; [lia | exact Hr].
Qed.

(** No end of the chat path is also a start of it. *)
Lemma chat_path_unbordered (k : nat) :
  0 < k < 10 →
  String.prefix (KString.substring k "/api/speak") "/api/speak" = false.
Proof.
  intros Hk.
  do 10 (destruct k as [|k]; [first [lia | reflexivity] |]). lia.
Qed.

Lemma replace_chat_path_suffix (b : string) :
  KString.contains "/api/speak" b = false →
  KString.replace "/api/speak" "" (b +:+ "/api/speak") = b.
Proof.
  unfold KString.replace. induction b as [|c b IH]; intros Hb.
  - reflexivity.
  - cbn [KString.contains] in Hb. apply orb_false_iff in Hb as [Hp Hc].
    rewrite append_String. cbn [KString.replace_from].
    destruct (String.prefix "/api/speak" (String c (b +:+ "/api/speak")))
      eqn:Hpre.
    + exfalso. rewrite <- append_String in Hpre.
      destruct (prefix_app_split "/api/speak" (String c b) "/api/speak" Hpre)
        as [Hl | [Hlen Hr]]; [congruence |].
      rewrite chat_path_unbordered in Hr; [discriminate |].
      simpl in Hlen |- *. lia.
    + f_equal. exact (IH Hc).
Qed.

Lemma length_app (b t : string) :
  String.length (b +:+ t) = String.length b + String.length t.
Proof.
  induction b as [|c b IH]; [reflexivity |].
  rewrite append_String. simpl. rewrite IH. reflexivity.
Qed.

Lemma substring_length_app (b t : string) :
  KString.substring (String.length b) (b +:+ t) = t.
Proof.
  induction b as [|c b IH]; [reflexivity |].
  rewrite append_String. simpl. exact IH.
Qed.

Lemma substring_0_length_app (b t : string) :
  String.substring 0 (String.length b) (b +:+ t) = b.
Proof.
  induction b as [|c b IH].
  - rewrite append_Empty. destruct t; reflexivity.
  - rewrite append_String. simpl. rewrite IH. reflexivity.
Qed.

(** Cutting a suffix off gives back what stood before it. *)
Lemma removeSuffix_app (b t : string) : removeSuffix t (b +:+ t) = b.
Proof.
  unfold removeSuffix, endsWith. rewrite length_app.
  replace (String.length b + String.length t - String.length t)
    with (String.length b) by lia.
  rewrite substring_length_app, String.eqb_refl.
  replace (String.length t <=? String.length b + String.length t)%nat
    with true by (symmetry; apply Nat.leb_le; lia).
  simpl. apply substring_0_length_app.
Qed.

End StringFacts.

(** ** Import: from the locator to the fetch URL *)

(** C2, the claim as worded, fails: [httpalex] is no absolute URL (it has no
    [:]), it has no [@], no [/] and no [.], and yet it is not built into the
    username-lookup URL: it starts with [http], which is what the handler
    tests, and passes through as it is. *)
Lemma import_locator_counterexample :
  KString.contains ":" "httpalex" = false
  ∧ KString.startsWith "@" "httpalex" = false
  ∧ KString.contains "/" "httpalex" = false
  ∧ KString.contains "." "httpalex" = false
  ∧ finalUrl "httpalex" = "httpalex"
  ∧ finalUrl "httpalex"
    ≠ "https://replik.tech/api/minecraft/export/username/httpalex".
Proof. repeat split. vm_compute. discriminate. Qed.

(** C2, as amended.  The locator is turned into the fetch URL by this
    precedence: a locator that starts with [http] is used as it is;
    otherwise a locator prefixed with [@] gives
    [https://replik.tech/api/minecraft/export/username/] followed by the
    remainder; otherwise a locator with no [/] and no [.] gives that URL
    followed by the whole locator; anything else passes through unchanged.
    The locators [alex], [@alex] and
    [https://replik.tech/api/minecraft/export/username/alex] all give the
    latter, and the fetch URL is the URL the launched download fetches. *)
Theorem import_locator_precedence :
  (∀ l, KString.startsWith "http" l = true → finalUrl l = l)
  ∧ (∀ u, finalUrl ("@" +:+ u)
          = "https://replik.tech/api/minecraft/export/username/" +:+ u)
  ∧ (∀ l, KString.startsWith "http" l = false →
          KString.startsWith "@" l = false →
          KString.contains "/" l = false →
          KString.contains "." l = false →
          finalUrl l
          = "https://replik.tech/api/minecraft/export/username/" +:+ l)
  ∧ (∀ l, KString.startsWith "http" l = false →
          KString.startsWith "@" l = false →
          KString.contains "/" l = true ∨ KString.contains "." l = true →
          finalUrl l = l)
  ∧ (finalUrl "alex"
     = "https://replik.tech/api/minecraft/export/username/alex"
     ∧ finalUrl "@alex"
       = "https://replik.tech/api/minecraft/export/username/alex"
     ∧ finalUrl "https://replik.tech/api/minecraft/export/username/alex"
       = "https://replik.tech/api/minecraft/export/username/alex")
  ∧ (∀ (Storage : Type) (D : TwinStorage Storage) player l
       (st : State Storage) api,
        launched (importTwin (Some player) l st)
        = Some (DownloadJob player (finalUrl l))
        ∧ ∃ rest,
            snd (runTask api (DownloadJob player (finalUrl l)) st)
            = CallDownloadTwin (finalUrl l) :: rest).
Proof.
  repeat split.
  - intros l Hl. unfold finalUrl. rewrite Hl. reflexivity.
  - intros u. unfold finalUrl. destruct u; reflexivity.
  - intros l H1 H2 H3 H4. unfold finalUrl. rewrite H1, H2, H3, H4. reflexivity.
  - intros l H1 H2 H3. unfold finalUrl. rewrite H1, H2.
    destruct H3 as [H3 | H3]; rewrite H3; simpl; [reflexivity |].
    rewrite andb_false_r. reflexivity.
  - simpl. destruct (downloadTwin api (finalUrl l)) as [td | e]; simpl.
    + destruct (addTwin td (storage st)) as [s' [e |]]; eauto.
    + eauto.
Qed.

(** ** Chat: the playback URL *)

(** C3, as amended.  When the reply carries a non-empty audio locator, the
    audio is played from a URL that is the locator itself if it starts as an
    absolute URL does, and otherwise the base followed by the locator, where
    the base is the endpoint with every occurrence of [/api/speak] removed;
    for an endpoint that ends with [/api/speak] and has it nowhere before,
    the base is the endpoint without that trailing segment. *)
Theorem chat_audio_playback_url
    (Storage : Type) (D : TwinStorage Storage) (api : TwinAPI)
    (player : Player) (twinData : TwinData) (msg : string)
    (st : State Storage) (response : ChatResponse) (audio : string) :
  sendMessage api (api_endpoint twinData) (twin_id twinData) msg
  = Returns response →
  audioUrl response = Some audio →
  audio ≠ EmptyString →
  ∃ url,
    runTask api (ChatJob player twinData msg) st
    = (st, [CallSendMessage (api_endpoint twinData) (twin_id twinData) msg;
            SendMessage player (Msg.reply twinData response);
            SendMessage player Msg.playing;
            PlayAudio url])
    ∧ (KString.startsWith "http" audio = true → url = audio)
    ∧ (KString.startsWith "http" audio = false →
       url = KString.replace "/api/speak" "" (api_endpoint twinData)
             +:+ audio)
    ∧ (KString.startsWith "http" audio = false →
       ∀ b, api_endpoint twinData = b +:+ "/api/speak" →
            KString.contains "/api/speak" b = false →
            url = b +:+ audio
                  ∧ url = removeSuffix "/api/speak" (api_endpoint twinData)
                          +:+ audio).
Proof.
  intros Hsend Haudio Hne.
  exists (fullAudioUrl twinData audio). split; [| split; [| split]].
  - simpl. rewrite Hsend, Haudio.
    destruct audio; [congruence | reflexivity].
  - intros Habs. unfold fullAudioUrl. rewrite Habs. reflexivity.
  - intros Hrel. unfold fullAudioUrl. rewrite Hrel. reflexivity.
  - intros Hrel b Hb Hnone. unfold fullAudioUrl. rewrite Hrel, Hb.
    rewrite replace_chat_path_suffix by exact Hnone.
    rewrite removeSuffix_app. split; reflexivity.
Qed.

(** The theorem at work: [maya], whose endpoint ends with the chat path,
    answers with the relative locator [/clip.mp3]. *)
Lemma chat_audio_playback_url_witness :
  ∃ url,
    runTask (Sample.speaking "/clip.mp3")
      (ChatJob Sample.steve Sample.maya "hello") Sample.imported
    = (Sample.imported,
       [CallSendMessage "https://replik.tech/api/speak" "twin-42" "hello";
        SendMessage Sample.steve "§b[Maya]§f hello";
        SendMessage Sample.steve Msg.playing;
        PlayAudio url])
    ∧ url = "https://replik.tech/clip.mp3".
Proof.
  destruct (chat_audio_playback_url (list TwinData) list_storage
              (Sample.speaking "/clip.mp3") Sample.steve Sample.maya "hello"
              Sample.imported
              {| text := "hello"; audioUrl := Some "/clip.mp3" |}
              "/clip.mp3" eq_refl eq_refl)
    as (url & Hrun & _ & _ & Hbase); [discriminate |].
  exists url. split; [exact Hrun |].
  apply (Hbase eq_refl "https://replik.tech" eq_refl eq_refl).
Defined.

(** C3, the claim as worded, fails: for an endpoint that ends with
    [/api/speak] and also has it earlier, the handler removes both, while the
    endpoint with its trailing segment stripped keeps the earlier one. *)
Lemma chat_audio_base_counterexample :
  endsWith "/api/speak" (api_endpoint Sample.echo) = true
  ∧ KString.startsWith "http" "/clip.mp3" = false
  ∧ runTask (Sample.speaking "/clip.mp3")
      (ChatJob Sample.steve Sample.echo "hello") Sample.imported
    = (Sample.imported,
       [CallSendMessage "https://h/api/speak/api/speak" "twin-7" "hello";
        SendMessage Sample.steve "§b[Echo]§f hello";
        SendMessage Sample.steve Msg.playing;
        PlayAudio "https://h/clip.mp3"])
  ∧ removeSuffix "/api/speak" (api_endpoint Sample.echo) +:+ "/clip.mp3"
    = "https://h/api/speak/clip.mp3"
  ∧ fullAudioUrl Sample.echo "/clip.mp3"
    ≠ specAudioUrl Sample.echo "/clip.mp3".
Proof.
  repeat split. vm_compute. discriminate.
Qed.

(** ** The handlers, one command at a time *)

Section Commands.

Context {Storage : Type} `{TwinStorage Storage}.

Implicit Types (st : State Storage) (player : Player) (n msg : string).

Lemma thinking_not_notFound (td : TwinData) n :
  Msg.thinking td ≠ Msg.notFoundChat n.
Proof. cbv. intros Heq. congruence. Qed.

Lemma createFailed_not_notFound n : Msg.createFailed ≠ Msg.notFoundSpawn n.
Proof. cbv. intros Heq. congruence. Qed.

Lemma createFailed_not_alreadySpawned n :
  Msg.createFailed ≠ Msg.alreadySpawned n.
Proof. cbv. intros Heq. congruence. Qed.

Lemma alreadySpawned_not_notFound n m :
  Msg.alreadySpawned n ≠ Msg.notFoundSpawn m.
Proof. cbv. intros Heq. congruence. Qed.

(** C4.  A message to [n] is answered with the twin-not-found line exactly
    when the directory has no profile under [n].  The registry and the
    entities play no part: with any other registry and heap the handler
    does the same.  With a profile stored, spawned or not, the request is
    launched and reaches the service with the profile's endpoint and twin
    id and the text. *)
Theorem chat_not_found_iff_no_profile player n msg st :
  (effects (chatWithTwin (Some player) n msg st)
   = [SendMessage player (Msg.notFoundChat n)]
   ↔ getTwinByName n (storage st) = None)
  ∧ (∀ reg ents,
       let st' := {| storage := storage st; spawnedEntities := reg;
                     entities := ents |} in
       effects (chatWithTwin (Some player) n msg st')
       = effects (chatWithTwin (Some player) n msg st)
       ∧ launched (chatWithTwin (Some player) n msg st')
         = launched (chatWithTwin (Some player) n msg st))
  ∧ (∀ td, getTwinByName n (storage st) = Some td →
       chatWithTwin (Some player) n msg st
       = {| after := st;
            effects := [SendMessage player (Msg.thinking td)];
            launched := Some (ChatJob player td msg) |}
       ∧ ∀ api st1, ∃ rest,
           snd (runTask api (ChatJob player td msg) st1)
           = CallSendMessage (api_endpoint td) (twin_id td) msg :: rest).
Proof.
  split; [| split].
  - unfold chatWithTwin. destruct (getTwinByName n (storage st)) as [td |].
    + simpl. split; [| discriminate].
      intros Heq. exfalso. apply (thinking_not_notFound td n). congruence.
    + simpl. split; reflexivity.
  - intros reg ents. simpl.
    destruct (getTwinByName n (storage st)); split; reflexivity.
  - intros td Htd. unfold chatWithTwin. rewrite Htd. split; [reflexivity |].
    intros api st1. simpl.
    destruct (sendMessage api (api_endpoint td) (twin_id td) msg); eauto.
Qed.

(** C5.  When the download of the profile throws, the import has written
    nothing: the handler itself leaves the state as it is, and the launched
    download, whenever it runs, leaves the state it finds as it is (the
    directory with it) and sends exactly one line, the failure line with the
    message of the error; the list command shows afterwards what it showed
    before. *)
Theorem failed_import_leaves_directory
    (api : TwinAPI) player (locator : string) st (e : Exception) :
  downloadTwin api (finalUrl locator) = Throws e →
  ∃ t,
    importTwin (Some player) locator st
    = {| after := st;
         effects := [SendMessage player Msg.downloading];
         launched := Some t |}
    ∧ ∀ st1,
        runTask api t st1
        = (st1, [CallDownloadTwin (finalUrl locator);
                 SendMessage player (Msg.importFailed e)])
        ∧ storage (fst (runTask api t st1)) = storage st1
        ∧ Msg.importFailed e
          = "§c✗ Failed to import twin: " +:+ KString.render (message e)
        ∧ ∀ src, listTwins src (fst (runTask api t st1)) = listTwins src st1.
Proof.
  intros Hthrow. exists (DownloadJob player (finalUrl locator)).
  split; [reflexivity |]. intros st1.
  assert (Hrun : runTask api (DownloadJob player (finalUrl locator)) st1
                 = (st1, [CallDownloadTwin (finalUrl locator);
                          SendMessage player (Msg.importFailed e)])).
  { simpl. rewrite Hthrow. reflexivity. }
  rewrite Hrun. repeat split.
Qed.

(** C10.  Issued by a source with no player, each of the five commands
    returns at once: it sends nothing, launches nothing and leaves the
    directory, the registry and the entities as they are, whatever they
    are; so does the session. *)
Theorem no_player_no_effect (locator n msg : string) (created : bool) st :
  importTwin None locator st = done_ st []
  ∧ listTwins None st = done_ st []
  ∧ spawnTwin None n created st = done_ st []
  ∧ chatWithTwin None n msg st = done_ st []
  ∧ removeTwin None n st = done_ st []
  ∧ ∀ ses : Session Storage,
      step (Import None locator) ses = (ses, [])
      ∧ step (ListAll None) ses = (ses, [])
      ∧ step (Spawn None n created) ses = (ses, [])
      ∧ step (Chat None n msg) ses = (ses, [])
      ∧ step (Remove None n) ses = (ses, []).
Proof.
  repeat split; destruct ses as [s p]; unfold step, issue; simpl;
    rewrite app_nil_r; reflexivity.
Qed.

End Commands.

(** The theorem at work: [@nobody] is imported while the service cannot be
    reached. *)
Lemma failed_import_leaves_directory_witness :
  ∃ t,
    launched (importTwin (Some Sample.steve) "@nobody" Sample.imported)
    = Some t
    ∧ runTask Sample.unreachable t Sample.imported
      = (Sample.imported,
         [CallDownloadTwin
            "https://replik.tech/api/minecraft/export/username/nobody";
          SendMessage Sample.steve
            "§c✗ Failed to import twin: Connection refused"]).
Proof.
  destruct (failed_import_leaves_directory (Storage := list TwinData)
              Sample.unreachable Sample.steve "@nobody" Sample.imported
              {| message := Some "Connection refused" |} eq_refl)
    as (t & Himport & Hrun).
  exists t. split.
  - rewrite Himport. reflexivity.
  - exact (proj1 (Hrun Sample.imported)).
Defined.

(** ** Spawning and removing *)

Section Lifecycle.

Context {Storage : Type} `{TwinStorage Storage}.

Implicit Types (st : State Storage) (player : Player) (n msg : string).

Lemma spawnTwin_live player n created st :
  isSpawned n st = true →
  spawnTwin (Some player) n created st
  = done_ st [SendMessage player (Msg.alreadySpawned n)].
Proof. intros Hl. unfold spawnTwin, spawnTwin_check. rewrite Hl. reflexivity. Qed.

Lemma spawnTwin_success player n st (td : TwinData) :
  isSpawned n st = false →
  getTwinByName n (storage st) = Some td →
  spawnTwin (Some player) n true st
  = done_ {| storage := storage st;
             spawnedEntities :=
               <[n := length (entities st)]> (spawnedEntities st);
             entities := entities st ++ [placed player n] |}
          (spawnedLines player td).
Proof.
  intros Hl Htd. unfold spawnTwin, spawnTwin_check. rewrite Hl, Htd.
  reflexivity.
Qed.

Lemma isSpawned_registered n (r : EntityRef) (ents : list TwinEntity)
    (e : TwinEntity) (s : Storage) (reg : gmap string EntityRef) :
  reg !! n = Some r → ents !! r = Some e →
  isSpawned n {| storage := s; spawnedEntities := reg; entities := ents |}
  = alive e.
Proof. intros Hr He. unfold isSpawned. simpl. rewrite Hr, He. reflexivity. Qed.

(** A spawn whose two success lines were sent went through every check. *)
Lemma spawnTwin_succeeded player n created st (td : TwinData) :
  effects (spawnTwin (Some player) n created st) = spawnedLines player td →
  isSpawned n st = false ∧ created = true
  ∧ ∃ td', getTwinByName n (storage st) = Some td'.
Proof.
  unfold spawnTwin, spawnTwin_check, spawnTwin_create, spawnedLines.
  destruct (isSpawned n st); [simpl; congruence |].
  destruct (getTwinByName n (storage st)) as [td' |]; [| simpl; congruence].
  destruct created; [| simpl; congruence]. eauto.
Qed.

(** C6, as amended.  The checks of spawn, in their order: a live instance
    of the name gives the already-spawned line, whatever the directory
    holds; otherwise a name without profile gives the twin-not-found line;
    otherwise a failed creation gives the creation-failure line, a line of
    its own, and writes nothing; otherwise the new instance stands at the
    centre of the requester's block (block x + 0.5, block y, block z + 0.5)
    with the requester's yaw and pitch 0, carries the name, is live and in
    the world, the registry holds it under the name, and the two success
    lines are sent, the second one telling how to chat with the twin. *)
Theorem spawn_checks_in_order player n created st :
  (isSpawned n st = true →
   spawnTwin (Some player) n created st
   = done_ st
       [SendMessage player
          ("§e" +:+ n +:+ " is already spawned! Use /twinremove first.")])
  ∧ (isSpawned n st = false → getTwinByName n (storage st) = None →
     spawnTwin (Some player) n created st
     = done_ st
         [SendMessage player
            ("§cTwin not found: " +:+ n +:+ ". Use /twinimport first.")])
  ∧ (∀ td, isSpawned n st = false →
           getTwinByName n (storage st) = Some td →
           created = false →
           spawnTwin (Some player) n created st
           = done_ st [SendMessage player "§cFailed to create twin entity"])
  ∧ (Msg.createFailed ≠ Msg.notFoundSpawn n
     ∧ Msg.createFailed ≠ Msg.alreadySpawned n
     ∧ Msg.alreadySpawned n ≠ Msg.notFoundSpawn n)
  ∧ (∀ td, isSpawned n st = false →
           getTwinByName n (storage st) = Some td →
           created = true →
           let r := spawnTwin (Some player) n created st in
           let instance :=
             {| twinName := Some n;
                posX := (inject_Z (bx (blockPos player)) + (1 # 2))%Q;
                posY := inject_Z (by_ (blockPos player));
                posZ := (inject_Z (bz (blockPos player)) + (1 # 2))%Q;
                entYaw := yaw player;
                entPitch := 0%Q;
                alive := true;
                inWorld := true |} in
           effects r
           = [SendMessage player
                ("§a✓ Spawned " +:+ display_name td +:+ " at your location!");
              SendMessage player
                ("§7Right-click to chat, or use: /twin " +:+ name td
                 +:+ " <message>")]
           ∧ launched r = None
           ∧ storage (after r) = storage st
           ∧ entities (after r) = (entities st ++ [instance])%list
           ∧ spawnedEntities (after r)
             = <[n := length (entities st)]> (spawnedEntities st)
           ∧ entities (after r) !! length (entities st) = Some instance
           ∧ isSpawned n (after r) = true).
Proof.
  split; [| split; [| split; [| split]]].
  - apply spawnTwin_live.
  - intros Hl Hnone. unfold spawnTwin, spawnTwin_check.
    rewrite Hl, Hnone. reflexivity.
  - intros td Hl Htd ->. unfold spawnTwin, spawnTwin_check.
    rewrite Hl, Htd. reflexivity.
  - split; [| split].
    + apply createFailed_not_notFound.
    + apply createFailed_not_alreadySpawned.
    + apply alreadySpawned_not_notFound.
  - intros td Hl Htd -> r instance. subst r.
    change instance with (placed player n). clear instance.
    rewrite (spawnTwin_success player n st td Hl Htd).
    cbn [effects launched after done_ storage entities spawnedEntities].
    assert (Hnew : (entities st ++ [placed player n])%list !! length (entities st)
                   = Some (placed player n)).
    { apply list_lookup_middle. reflexivity. }
    repeat split; try exact Hnew.
    erewrite isSpawned_registered;
      [| apply lookup_insert_eq | exact Hnew].
    reflexivity.
Qed.

Lemma removeTwin_not_live player n st :
  isSpawned n st = false →
  removeTwin (Some player) n st
  = done_ st [SendMessage player (Msg.notSpawned n)].
Proof. intros Hl. unfold removeTwin. rewrite Hl. reflexivity. Qed.

Lemma removeTwin_live player n st (r : EntityRef) :
  isSpawned n st = true → spawnedEntities st !! n = Some r →
  removeTwin (Some player) n st
  = done_ {| storage := storage st;
             spawnedEntities := delete n (spawnedEntities st);
             entities := alter discard r (entities st) |}
          [SendMessage player (Msg.despawned n)].
Proof. intros Hl Hr. unfold removeTwin. rewrite Hl, Hr. reflexivity. Qed.

Lemma isSpawned_lookup n st :
  isSpawned n st = true →
  ∃ r e, spawnedEntities st !! n = Some r ∧ entities st !! r = Some e
         ∧ alive e = true.
Proof.
  unfold isSpawned. destruct (spawnedEntities st !! n) as [r |]; [| done].
  destruct (entities st !! r) as [e |] eqn:He; [| done].
  intros Ha. exists r, e. auto.
Qed.

Lemma removeTwin_then_not_live player n st :
  isSpawned n (after (removeTwin (Some player) n st)) = false.
Proof.
  destruct (isSpawned n st) eqn:Hl.
  - destruct (isSpawned_lookup n st Hl) as (r & e & Hr & _).
    rewrite (removeTwin_live player n st r Hl Hr). unfold isSpawned. simpl.
    rewrite lookup_delete_eq. reflexivity.
  - rewrite (removeTwin_not_live player n st Hl). exact Hl.
Qed.

(** C7.  Removing a name that has no live instance gives the
    not-currently-spawned line and changes nothing.  Removing a name right
    after its spawn succeeded gives the confirmation: the instance is
    terminated and the registry entry deleted.  After a remove the name is
    never live. *)
Theorem remove_after_spawn player n st :
  (isSpawned n st = false →
   removeTwin (Some player) n st
   = done_ st [SendMessage player (Msg.notSpawned n)])
  ∧ (∀ spawner created td,
       effects (spawnTwin (Some spawner) n created st)
       = [SendMessage spawner (Msg.spawned td);
          SendMessage spawner (Msg.guidance td)] →
       let r := removeTwin (Some player) n
                  (after (spawnTwin (Some spawner) n created st)) in
       effects r = [SendMessage player (Msg.despawned n)]
       ∧ spawnedEntities (after r) !! n = None
       ∧ entities (after r) !! length (entities st)
         = Some (discard (placed spawner n))
       ∧ alive (discard (placed spawner n)) = false
       ∧ isSpawned n (after r) = false)
  ∧ isSpawned n (after (removeTwin (Some player) n st)) = false.
Proof.
  split; [apply removeTwin_not_live | split; [| apply removeTwin_then_not_live]].
  intros spawner created td Hsent r.
  destruct (spawnTwin_succeeded spawner n created st td Hsent)
    as (Hl & -> & td' & Htd').
  subst r.
  assert (Hnew : (entities st ++ [placed spawner n])%list !! length (entities st)
                 = Some (placed spawner n)).
  { apply list_lookup_middle. reflexivity. }
  assert (Hrem :
    removeTwin (Some player) n (after (spawnTwin (Some spawner) n true st))
    = done_ {| storage := storage st;
               spawnedEntities :=
                 delete n (<[n := length (entities st)]> (spawnedEntities st));
               entities :=
                 alter discard (length (entities st))
                   (entities st ++ [placed spawner n]) |}
            [SendMessage player (Msg.despawned n)]).
  { rewrite (spawnTwin_success spawner n st td' Hl Htd').
    unfold done_ at 1. cbn [after].
    rewrite (removeTwin_live player n _ (length (entities st)));
      [reflexivity | | apply lookup_insert_eq].
    erewrite isSpawned_registered; [| apply lookup_insert_eq | exact Hnew].
    reflexivity. }
  rewrite Hrem. simpl. repeat split.
  - apply lookup_delete_eq.
  - rewrite list_lookup_alter_eq, Hnew. reflexivity.
  - unfold isSpawned. simpl. rewrite lookup_delete_eq. reflexivity.
Qed.

(** C9.  A name whose registry entry points to an instance that is no
    longer alive is not spawned; removing it gives the not-currently-spawned
    line and leaves the entry where it is, as do the list and chat commands;
    a spawn of the name passes the live check and, the profile being there
    and the creation succeeding, puts the new instance in the place of the
    stale entry. *)
Theorem stale_entry_behaviour player n st (r : EntityRef) (e : TwinEntity) :
  spawnedEntities st !! n = Some r →
  entities st !! r = Some e →
  alive e = false →
  isSpawned n st = false
  ∧ removeTwin (Some player) n st
    = done_ st [SendMessage player (Msg.notSpawned n)]
  ∧ spawnedEntities (after (removeTwin (Some player) n st)) !! n = Some r
  ∧ (∀ src, after (listTwins src st) = st)
  ∧ (∀ src msg, after (chatWithTwin src n msg st) = st)
  ∧ (∀ td, getTwinByName n (storage st) = Some td →
       let run := spawnTwin (Some player) n true st in
       effects run = [SendMessage player (Msg.spawned td);
                      SendMessage player (Msg.guidance td)]
       ∧ spawnedEntities (after run) !! n = Some (length (entities st))
       ∧ length (entities st) ≠ r
       ∧ entities (after run) !! length (entities st)
         = Some (placed player n)
       ∧ entities (after run) !! r = Some e
       ∧ isSpawned n (after run) = true).
Proof.
  intros Hr He Hdead.
  assert (Hl : isSpawned n st = false).
  { unfold isSpawned. rewrite Hr, He. exact Hdead. }
  split; [exact Hl |]. rewrite (removeTwin_not_live player n st Hl).
  split; [reflexivity |]. split; [exact Hr |]. split; [| split].
  - intros [p |]; simpl; [| reflexivity].
    destruct (load (storage st)); reflexivity.
  - intros [p |] msg; simpl; [| reflexivity].
    destruct (getTwinByName n (storage st)); reflexivity.
  - intros td Htd run. subst run.
    rewrite (spawnTwin_success player n st td Hl Htd). simpl.
    assert (Hnew : (entities st ++ [placed player n])%list !! length (entities st)
                   = Some (placed player n)).
    { apply list_lookup_middle. reflexivity. }
    pose proof (lookup_lt_Some _ _ _ He) as Hlt.
    repeat split.
    + apply lookup_insert_eq.
    + lia.
    + exact Hnew.
    + rewrite lookup_app_l by exact Hlt. exact He.
    + erewrite isSpawned_registered;
        [| apply lookup_insert_eq | exact Hnew].
      reflexivity.
Qed.

End Lifecycle.

(** C6, the claim as worded, fails: the instance is not put where the
    requester stands nor does it look as the requester does.  A requester at
    (10.2, 64, -2.7) looking down by 30 degrees gets an instance at
    (10.5, 64, -2.5), the centre of the block, looking level. *)
Lemma spawn_position_counterexample :
  let requester := playerAt 1 SampleMore.lookingDown in
  let r := spawnTwin (Some requester) "maya" true Sample.imported in
  ∃ e, entities (after r) !! 0 = Some e
       ∧ twinName e = Some "maya"
       ∧ posX e = (21 # 2)%Q ∧ posY e = (64 # 1)%Q ∧ posZ e = ((-5) # 2)%Q
       ∧ entYaw e = lookYaw SampleMore.lookingDown
       ∧ entPitch e = 0%Q
       ∧ ¬ (posX e == atX SampleMore.lookingDown)%Q
       ∧ ¬ (posZ e == atZ SampleMore.lookingDown)%Q
       ∧ ¬ (entPitch e == lookPitch SampleMore.lookingDown)%Q.
Proof.
  eexists. split; [reflexivity |].
  repeat split; intros Heq; vm_compute in Heq; discriminate.
Qed.

(** The theorem at work: the registry still names a dead instance of
    [maya]. *)
Lemma stale_entry_behaviour_witness :
  isSpawned "maya" Sample.stale = false
  ∧ spawnedEntities
      (after (removeTwin (Some Sample.steve) "maya" Sample.stale)) !! "maya"
    = Some 0
  ∧ spawnedEntities
      (after (spawnTwin (Some Sample.steve) "maya" true Sample.stale))
      !! "maya"
    = Some 1.
Proof.
  destruct (stale_entry_behaviour (Storage := list TwinData)
              Sample.steve "maya" Sample.stale 0
              (terminate (spawnEntity (setTwinData "maya" newEntity))))
    as (Hnot & _ & Hkept & _ & _ & Hspawn);
    [vm_compute; reflexivity | reflexivity | reflexivity |].
  split; [exact Hnot |]. split; [exact Hkept |].
  exact (proj1 (proj2 (Hspawn Sample.maya eq_refl))).
Defined.

(** ** The registry along a session *)

Section Invariant.

Context {Storage : Type} `{TwinStorage Storage}.

Implicit Types (st : State Storage) (ses : Session Storage) (n : string).

Lemma consistent_initial (s0 : Storage) : consistent (state (initial s0)).
Proof.
  split.
  - intros n r Hr. simpl in Hr. rewrite lookup_empty in Hr. discriminate.
  - intros n r (e & He & _). simpl in He. discriminate.
Qed.

(** Only the registry and the heap matter. *)
Lemma consistent_storage st (s' : Storage) :
  consistent st →
  consistent {| storage := s'; spawnedEntities := spawnedEntities st;
                entities := entities st |}.
Proof. intros [Hwf Hlive]. split; exact Hwf || exact Hlive. Qed.

Lemma live_is_spawned st n (r : nat) :
  live_registered st → liveInstance st n r → isSpawned n st = true.
Proof.
  intros Hlive Hinst. pose proof (Hlive n r Hinst) as Hr.
  destruct Hinst as (e & He & _ & Ha). unfold isSpawned.
  rewrite Hr, He. exact Ha.
Qed.

Lemma consistent_spawned st n (e : TwinEntity) :
  consistent st → isSpawned n st = false →
  twinName e = Some n →
  consistent {| storage := storage st;
                spawnedEntities :=
                  <[n := length (entities st)]> (spawnedEntities st);
                entities := entities st ++ [e] |}.
Proof.
  intros [Hwf Hlive] Hl Hname. split.
  - intros m r Hr. simpl in *.
    destruct (decide (n = m)) as [<- | Hne].
    + rewrite lookup_insert_eq in Hr. injection Hr as <-.
      exists e. split; [apply list_lookup_middle; reflexivity | exact Hname].
    + rewrite lookup_insert_ne in Hr by exact Hne.
      destruct (Hwf m r Hr) as (e' & He' & Hn').
      exists e'. split; [| exact Hn'].
      rewrite lookup_app_l; [exact He' | eapply lookup_lt_Some; exact He'].
  - intros m r (e' & He' & Hn' & Ha'). simpl in *.
    apply lookup_app_Some in He' as [He' | [Hge He']].
    + assert (Hinst : liveInstance st m r) by (exists e'; auto).
      destruct (decide (n = m)) as [<- | Hne].
      * rewrite (live_is_spawned st n r Hlive Hinst) in Hl. discriminate.
      * rewrite lookup_insert_ne by exact Hne. exact (Hlive m r Hinst).
    + destruct (r - length (entities st)) as [| k] eqn:Hk;
        [| destruct k; discriminate].
      injection He' as <-.
      assert (m = n) as -> by congruence.
      replace r with (length (entities st)) by lia.
      apply lookup_insert_eq.
Qed.

(** An entity that stops living, by removal or on its own. *)
Lemma consistent_ended st (f : TwinEntity → TwinEntity) (r : nat) :
  (∀ e, twinName (f e) = twinName e) → (∀ e, alive (f e) = false) →
  consistent st →
  registry_wf {| storage := storage st;
                 spawnedEntities := spawnedEntities st;
                 entities := alter f r (entities st) |}
  ∧ ∀ m r', liveInstance
              {| storage := storage st;
                 spawnedEntities := spawnedEntities st;
                 entities := alter f r (entities st) |} m r' →
            r' ≠ r ∧ spawnedEntities st !! m = Some r'.
Proof.
  intros Hname Hdead [Hwf Hlive]. split.
  - intros m r' Hr'. simpl in *.
    destruct (Hwf m r' Hr') as (e & He & Hn).
    destruct (decide (r = r')) as [<- | Hne].
    + exists (f e). rewrite list_lookup_alter_eq, He, Hname. auto.
    + exists e. rewrite list_lookup_alter_ne by exact Hne. auto.
  - intros m r' (e & He & Hn & Ha). simpl in *.
    destruct (decide (r = r')) as [<- | Hne].
    + rewrite list_lookup_alter_eq in He.
      destruct (entities st !! r) as [e0 |]; [| discriminate].
      injection He as <-. rewrite Hdead in Ha. discriminate.
    + rewrite list_lookup_alter_ne in He by exact Hne.
      split; [congruence |]. apply Hlive. exists e. auto.
Qed.

Lemma consistent_died st (r : nat) :
  consistent st →
  consistent {| storage := storage st;
                spawnedEntities := spawnedEntities st;
                entities := alter terminate r (entities st) |}.
Proof.
  intros Hc.
  destruct (consistent_ended st terminate r) as [Hwf Hlive]; auto.
  split; [exact Hwf |]. intros m r' Hinst. exact (proj2 (Hlive m r' Hinst)).
Qed.

Lemma consistent_removed st n (r : nat) :
  consistent st → spawnedEntities st !! n = Some r →
  consistent {| storage := storage st;
                spawnedEntities := delete n (spawnedEntities st);
                entities := alter discard r (entities st) |}.
Proof.
  intros Hc Hr.
  destruct (consistent_ended st discard r) as [Hwf Hlive]; auto.
  split.
  - intros m r' Hr'. simpl in *.
    apply lookup_delete_Some in Hr' as [_ Hr']. exact (Hwf m r' Hr').
  - intros m r' Hinst. simpl.
    destruct (Hlive m r' Hinst) as [Hne Hm].
    rewrite lookup_delete_ne; [exact Hm | congruence].
Qed.

Lemma consistent_spawnTwin src n created st :
  consistent st → consistent (after (spawnTwin src n created st)).
Proof.
  intros Hc. destruct src as [player |]; [| exact Hc].
  unfold spawnTwin, spawnTwin_check.
  destruct (isSpawned n st) eqn:Hl; [exact Hc |].
  destruct (getTwinByName n (storage st)) as [td |]; [| exact Hc].
  destruct created; [| exact Hc].
  apply consistent_spawned; auto.
Qed.

Lemma consistent_removeTwin src n st :
  consistent st → consistent (after (removeTwin src n st)).
Proof.
  intros Hc. destruct src as [player |]; [| exact Hc].
  unfold removeTwin. destruct (isSpawned n st); [| exact Hc]. simpl.
  destruct (spawnedEntities st !! n) as [r |] eqn:Hr; [| exact Hc].
  apply consistent_removed; auto.
Qed.

Lemma consistent_runTask (api : TwinAPI) (t : Task) st :
  consistent st → consistent (fst (runTask api t st)).
Proof.
  intros Hc. destruct t as [player url | player td msg]; simpl.
  - destruct (downloadTwin api url) as [td | e]; [| exact Hc].
    destruct (addTwin td (storage st)) as [s' [e |]];
      apply consistent_storage; exact Hc.
  - destruct (sendMessage api (api_endpoint td) (twin_id td) msg);
      exact Hc.
Qed.

Lemma consistent_step (ev : Event) ses :
  consistent (state ses) → consistent (state (fst (step ev ses))).
Proof.
  intros Hc. destruct ev as [src l | src | src n c | src n m | src n | api i | r];
    simpl.
  - destruct src; exact Hc.
  - destruct src as [p |]; [| exact Hc]. simpl.
    destruct (load (storage (state ses))); exact Hc.
  - apply consistent_spawnTwin. exact Hc.
  - destruct src as [p |]; [| exact Hc]. simpl.
    destruct (getTwinByName n (storage (state ses))); exact Hc.
  - apply consistent_removeTwin. exact Hc.
  - destruct (pending ses !! i) as [t |]; [| exact Hc].
    pose proof (consistent_runTask api t (state ses) Hc) as Hc'.
    destruct (runTask api t (state ses)) as [st' effs]. exact Hc'.
  - apply consistent_died. exact Hc.
Qed.

Lemma consistent_run (evs : list Event) ses :
  consistent (state ses) → consistent (state (fst (run evs ses))).
Proof.
  revert ses. induction evs as [| ev evs IH]; intros ses Hc; [exact Hc |].
  simpl. pose proof (consistent_step ev ses Hc) as Hc'.
  destruct (step ev ses) as [ses' effs]. specialize (IH ses' Hc').
  destruct (run evs ses') as [ses'' effs']. exact IH.
Qed.

(** C1.  In every state a session reaches, whatever commands were issued,
    downloads and chats completed and instances died on the way: a profile
    name has at most one live instance, and that one is the instance the
    registry holds under the name; a spawn for a name that has a live
    instance sends the already-spawned line and leaves the state, the
    registry entry with it, as it is; and the registry holds at most one
    instance under a name. *)
Theorem one_live_instance_per_name (s0 : Storage) (evs : list Event) :
  let st := state (fst (run evs (initial s0))) in
  (∀ n r1 r2, liveInstance st n r1 → liveInstance st n r2 → r1 = r2)
  ∧ (∀ n r, liveInstance st n r → spawnedEntities st !! n = Some r)
  ∧ (∀ player n created,
       isSpawned n st = true →
       spawnTwin (Some player) n created st
       = done_ st [SendMessage player (Msg.alreadySpawned n)])
  ∧ (∀ n (r1 r2 : nat),
       spawnedEntities st !! n = Some r1 →
       spawnedEntities st !! n = Some r2 → r1 = r2).
Proof.
  intros st.
  destruct (consistent_run evs (initial s0) (consistent_initial s0))
    as [Hwf Hlive].
  fold st in Hwf, Hlive. repeat split.
  - intros n r1 r2 H1 H2.
    pose proof (Hlive n r1 H1). pose proof (Hlive n r2 H2). congruence.
  - exact Hlive.
  - intros player n created. apply spawnTwin_live.
  - intros n r1 r2 H1 H2. congruence.
Qed.

End Invariant.

(** ** Two spawns of one name *)

Section TwoSpawns.

Context {Storage : Type} `{TwinStorage Storage}.

Implicit Types (st : State Storage) (n : string).

Lemma spawned_is_live player n st :
  isSpawned n
    {| storage := storage st;
       spawnedEntities := <[n := length (entities st)]> (spawnedEntities st);
       entities := entities st ++ [placed player n] |}
  = true.
Proof.
  erewrite isSpawned_registered;
    [| apply lookup_insert_eq | apply list_lookup_middle; reflexivity].
  reflexivity.
Qed.

Lemma spawnTwin_launched src n created st :
  launched (spawnTwin src n created st) = None.
Proof.
  destruct src as [player |]; [| reflexivity].
  unfold spawnTwin, spawnTwin_check, spawnTwin_create.
  destruct (isSpawned n st); [reflexivity |].
  destruct (getTwinByName n (storage st)); [| reflexivity].
  destruct created; reflexivity.
Qed.

(** Two spawn commands in a row are the two handlers, one after the
    other. *)
Lemma run_two_spawns src1 src2 n1 n2 (c1 c2 : bool) st (tasks : list Task) :
  run [Spawn src1 n1 c1; Spawn src2 n2 c2]
    {| state := st; pending := tasks |}
  = ({| state := after (spawnTwin src2 n2 c2
                          (after (spawnTwin src1 n1 c1 st)));
        pending := tasks |},
     effects (spawnTwin src1 n1 c1 st)
     ++ effects (spawnTwin src2 n2 c2 (after (spawnTwin src1 n1 c1 st)))).
Proof.
  cbn [run step issue state pending].
  rewrite !spawnTwin_launched. cbn [option_list].
  rewrite !app_nil_r. reflexivity.
Qed.

(** C8, as amended.  For a name with a profile and no live instance, two
    spawn calls that run one after the other, the first with the creation
    succeeding, give one success and one already-spawned line, in the order
    of the calls, and the registry holds the instance of the first.  What
    keeps the two apart is the live check; the registry write is a plain
    put, which sets the entry whatever was there. *)
Theorem serial_spawns_one_success
    st (p1 p2 : Player) n (td : TwinData) (created : bool) :
  isSpawned n st = false →
  getTwinByName n (storage st) = Some td →
  let first := spawnTwin (Some p1) n true st in
  let second := spawnTwin (Some p2) n created (after first) in
  effects first
  = [SendMessage p1
       ("§a✓ Spawned " +:+ display_name td +:+ " at your location!");
     SendMessage p1
       ("§7Right-click to chat, or use: /twin " +:+ name td
        +:+ " <message>")]
  ∧ effects second
    = [SendMessage p2
         ("§e" +:+ n +:+ " is already spawned! Use /twinremove first.")]
  ∧ after second = after first
  ∧ spawnedEntities (after first)
    = <[n := length (entities st)]> (spawnedEntities st)
  ∧ spawnedEntities (after second) !! n = Some (length (entities st))
  ∧ ∀ tasks,
      run [Spawn (Some p1) n true; Spawn (Some p2) n created]
        {| state := st; pending := tasks |}
      = ({| state := after first; pending := tasks |},
         effects first ++ effects second).
Proof.
  intros Hl Htd first second.
  assert (Hfirst : first = done_
            {| storage := storage st;
               spawnedEntities :=
                 <[n := length (entities st)]> (spawnedEntities st);
               entities := entities st ++ [placed p1 n] |}
            (spawnedLines p1 td)).
  { apply spawnTwin_success; assumption. }
  assert (Hlive : isSpawned n (after first) = true).
  { rewrite Hfirst. apply spawned_is_live. }
  assert (Hsecond : second
                    = done_ (after first)
                        [SendMessage p2 (Msg.alreadySpawned n)]).
  { apply spawnTwin_live. exact Hlive. }
  split; [rewrite Hfirst; reflexivity |].
  split; [rewrite Hsecond; reflexivity |].
  split; [rewrite Hsecond; reflexivity |].
  split; [rewrite Hfirst; reflexivity |].
  split; [rewrite Hsecond, Hfirst; apply lookup_insert_eq |].
  intros tasks. rewrite run_two_spawns. fold first. fold second.
  rewrite Hsecond. reflexivity.
Qed.

End TwoSpawns.

(** The theorem at work: two players spawn [maya], one after the other. *)
Lemma serial_spawns_one_success_witness :
  let first := spawnTwin (Some Sample.steve) "maya" true Sample.imported in
  let second := spawnTwin (Some Sample.alex) "maya" true (after first) in
  effects first = spawnedLines Sample.steve Sample.maya
  ∧ effects second
    = [SendMessage Sample.alex
         "§emaya is already spawned! Use /twinremove first."]
  ∧ spawnedEntities (after second) !! "maya" = Some 0.
Proof.
  destruct (serial_spawns_one_success (Storage := list TwinData)
              Sample.imported Sample.steve Sample.alex "maya" Sample.maya true)
    as (Hfirst & Hsecond & _ & _ & Hreg & _); [reflexivity | reflexivity |].
  split; [exact Hfirst |]. split; [exact Hsecond | exact Hreg].
Defined.

(** C8, the claim as worded, fails, and it does so for calls that run one
    after the other, as the handlers do.  The registry write is no
    insert-if-absent: where the registry holds an entry of the name (a
    stale one), the spawn replaces it, which an insert-if-absent would
    not.  And two spawns of one name in a row need not give one success and
    one already-spawned line: when the creation fails for the first, the
    first gets the creation-failure line and the second succeeds. *)
Lemma two_spawns_counterexample :
  spawnedEntities Sample.stale !! "maya" = Some 0
  ∧ spawnedEntities
      (after (spawnTwin (Some Sample.steve) "maya" true Sample.stale))
      !! "maya" = Some 1
  ∧ insertIfAbsent "maya" 1 (spawnedEntities Sample.stale) !! "maya" = Some 0
  ∧ run [Spawn (Some Sample.steve) "maya" false;
         Spawn (Some Sample.alex) "maya" true]
      {| state := Sample.imported; pending := [] |}
    = ({| state := after (spawnTwin (Some Sample.alex) "maya" true
                            Sample.imported);
          pending := [] |},
       [SendMessage Sample.steve "§cFailed to create twin entity";
        SendMessage Sample.alex "§a✓ Spawned Maya at your location!";
        SendMessage Sample.alex
          "§7Right-click to chat, or use: /twin maya <message>"]).
Proof.
  split; [vm_compute; reflexivity |].
  split; [vm_compute; reflexivity |].
  split; [vm_compute; reflexivity |].
  reflexivity.
Qed.

(** ** A session from import to removal *)

(** The scenario of the specification on the list-backed directory: [maya]
    is imported, spawned, spawned again, written to, removed and listed. *)
Example session_maya :
  snd (run [Import (Some Sample.steve) "maya";
            Complete (Sample.speaking "/clip.mp3") 0;
            Spawn (Some Sample.steve) "maya" true;
            Spawn (Some Sample.alex) "maya" true;
            Chat (Some Sample.steve) "maya" "hello";
            Complete (Sample.speaking "/clip.mp3") 0;
            Remove (Some Sample.steve) "maya";
            ListAll (Some Sample.steve)]
         (initial (Storage := list TwinData) []))
  = [SendMessage Sample.steve "§e⏳ Downloading twin data...";
     CallDownloadTwin "https://replik.tech/api/minecraft/export/username/maya";
     SendMessage Sample.steve "§a✓ Loaded twin: Maya";
     SendMessage Sample.steve "§a✓ Spawned Maya at your location!";
     SendMessage Sample.steve
       "§7Right-click to chat, or use: /twin maya <message>";
     SendMessage Sample.alex
       "§emaya is already spawned! Use /twinremove first.";
     SendMessage Sample.steve "§eMaya is thinking...";
     CallSendMessage "https://replik.tech/api/speak" "twin-42" "hello";
     SendMessage Sample.steve "§b[Maya]§f hello";
     SendMessage Sample.steve "§a🔊 Playing voice...";
     PlayAudio "https://replik.tech/clip.mp3";
     SendMessage Sample.steve "§a✓ Despawned maya";
     SendMessage Sample.steve "§b=== Imported Twins ===";
     SendMessage Sample.steve "§f- Maya §7(Not spawned)"].
Proof. vm_compute. reflexivity. Qed.

(** ** Further properties of the import locator *)

Section LocatorFacts.

Lemma usernameUrl_is_http (u : string) :
  KString.startsWith "http" (usernameUrl u) = true.
Proof. reflexivity. Qed.

Lemma startsWith_at (l : string) :
  KString.startsWith "@" l = true → l = "@" +:+ KString.substring 1 l.
Proof.
  intros Hl. apply prefix_app_iff in Hl as [t ->]. reflexivity.
Qed.

(** X1.  Normalising a locator twice is normalising it once: the fetch URL
    of a locator is its own fetch URL. *)
Theorem finalUrl_idempotent (l : string) : finalUrl (finalUrl l) = finalUrl l.
Proof.
  unfold finalUrl at 2 3.
  destruct (KString.startsWith "http" l) eqn:Hhttp.
  - unfold finalUrl. rewrite Hhttp. reflexivity.
  - destruct (KString.startsWith "@" l) eqn:Hat.
    + unfold finalUrl. rewrite usernameUrl_is_http. reflexivity.
    + destruct (negb (KString.contains "/" l) && negb (KString.contains "." l))
        eqn:Hplain.
      * unfold finalUrl. rewrite usernameUrl_is_http. reflexivity.
      * unfold finalUrl. rewrite Hhttp, Hat, Hplain. reflexivity.
Qed.

(** X2.  Normalisation either leaves the locator as it is or turns it into
    a username-lookup URL: for a locator with a leading [@], the URL
    [https://replik.tech/api/minecraft/export/username/] followed by the
    locator without that [@]; for a locator without leading [@], that URL
    followed by the whole locator.  A locator with a leading [@] is never
    left as it is, and the fetch URL never starts with [@]. *)
Theorem finalUrl_shape (l : string) :
  (finalUrl l = l
   ∨ (∃ u, l = "@" +:+ u
           ∧ finalUrl l
             = "https://replik.tech/api/minecraft/export/username/" +:+ u)
   ∨ (KString.startsWith "@" l = false
      ∧ finalUrl l
        = "https://replik.tech/api/minecraft/export/username/" +:+ l))
  ∧ (KString.startsWith "@" l = true → finalUrl l ≠ l)
  ∧ KString.startsWith "@" (finalUrl l) = false.
Proof.
  unfold finalUrl.
  destruct (KString.startsWith "http" l) eqn:Hhttp.
  - apply prefix_app_iff in Hhttp as [t ->].
    split; [left; reflexivity |]. split; [discriminate | reflexivity].
  - destruct (KString.startsWith "@" l) eqn:Hat.
    + split; [| split; [| reflexivity]].
      * right. left. exists (KString.substring 1 l).
        split; [apply startsWith_at; exact Hat | reflexivity].
      * intros _ Heq. rewrite <- Heq in Hat. discriminate.
    + destruct (negb (KString.contains "/" l) && negb (KString.contains "." l)).
      * split; [| split; [discriminate | reflexivity]].
        right. right. split; reflexivity.
      * split; [left; reflexivity |]. split; [discriminate | exact Hat].
Qed.

End LocatorFacts.

(** ** Further properties of the chat and download completions *)

Section CompletionFacts.

Context {Storage : Type} `{TwinStorage Storage}.

Implicit Types (st : State Storage) (player : Player) (n msg : string).

Lemma replace_from_absent (old new s : string) :
  KString.contains old s = false → KString.replace_from old new 0 s = s.
Proof.
  induction s as [| c s IH]; intros Hs; [reflexivity |].
  cbn [KString.contains] in Hs. apply orb_false_iff in Hs as [Hp Hc].
  cbn [KString.replace_from]. rewrite Hp, (IH Hc). reflexivity.
Qed.

(** X3.  For an endpoint in which [/api/speak] does not occur, the whole
    endpoint is the base: a relative audio locator is played from the
    endpoint followed by the locator. *)
Theorem audio_base_without_chat_path (twinData : TwinData) (audio : string) :
  KString.contains "/api/speak" (api_endpoint twinData) = false →
  KString.startsWith "http" audio = false →
  fullAudioUrl twinData audio = api_endpoint twinData +:+ audio.
Proof.
  intros Habsent Hrel. unfold fullAudioUrl, KString.replace.
  rewrite Hrel, replace_from_absent by exact Habsent. reflexivity.
Qed.

(** X4.  A chat completion plays audio exactly when the service answered
    with a reply whose audio locator is present and not empty; it then plays
    one URL, announced by the playing line.  A failed request and a reply
    without locator play nothing. *)
Theorem chat_plays_audio_iff
    (api : TwinAPI) player (twinData : TwinData) msg st :
  let effs := snd (runTask api (ChatJob player twinData msg) st) in
  ((∃ url, In (PlayAudio url) effs)
   ↔ ∃ response audio,
       sendMessage api (api_endpoint twinData) (twin_id twinData) msg
       = Returns response
       ∧ audioUrl response = Some audio ∧ audio ≠ EmptyString)
  ∧ (∀ url, In (PlayAudio url) effs →
       ∃ response audio,
         audioUrl response = Some audio
         ∧ url = fullAudioUrl twinData audio
         ∧ effs = [CallSendMessage (api_endpoint twinData)
                     (twin_id twinData) msg;
                   SendMessage player (Msg.reply twinData response);
                   SendMessage player Msg.playing;
                   PlayAudio url]).
Proof.
  intros effs. subst effs. simpl.
  destruct (sendMessage api (api_endpoint twinData) (twin_id twinData) msg)
    as [response | e]; simpl.
  - destruct (audioUrl response) as [[| c audio] |] eqn:Haudio; simpl.
    + split.
      * split.
        -- intros [url [Hu | [Hu | []]]]; discriminate.
        -- intros (r & a & Hr & Ha & Hne). congruence.
      * intros url [Hu | [Hu | []]]; discriminate.
    + split.
      * split.
        -- intros _. exists response, (String c audio).
           repeat split; [exact Haudio | discriminate].
        -- intros _. eexists. right. right. right. left. reflexivity.
      * intros url [Hu | [Hu | [Hu | [Hu | []]]]]; try discriminate.
        injection Hu as <-. exists response, (String c audio).
        repeat split. exact Haudio.
    + split.
      * split.
        -- intros [url [Hu | [Hu | []]]]; discriminate.
        -- intros (r & a & Hr & Ha & Hne). congruence.
      * intros url [Hu | [Hu | []]]; discriminate.
  - split.
    + split.
      * intros [url [Hu | [Hu | [Hu | []]]]]; discriminate.
      * intros (r & a & Hr & _). discriminate.
    + intros url [Hu | [Hu | [Hu | []]]]; discriminate.
Qed.

Lemma SendMessage_line (p q : Player) (a b : string) :
  SendMessage p a = SendMessage q b → a = b.
Proof. intros Heq. congruence. Qed.

Lemma loaded_not_importFailed (td : TwinData) (e : Exception) :
  Msg.loaded td ≠ Msg.importFailed e.
Proof. cbv. intros Heq. congruence. Qed.

Lemma skin_not_importFailed (td : TwinData) (e : Exception) :
  Msg.skin td ≠ Msg.importFailed e.
Proof. cbv. intros Heq. congruence. Qed.

Lemma loaded_not_skin (td td' : TwinData) : Msg.loaded td ≠ Msg.skin td'.
Proof. cbv. intros Heq. congruence. Qed.

(** X5.  A download completion reports success exactly when both the
    download and the write to the directory went through: the loaded line
    of a profile is sent if and only if the service returned that profile
    and [addTwin] threw nothing; a failure line is sent if and only if one
    of the two threw, and carries the message of what was thrown. *)
Theorem download_reports_outcome (api : TwinAPI) player (url : string) st :
  let effs := snd (runTask api (DownloadJob player url) st) in
  (∀ td, In (SendMessage player (Msg.loaded td)) effs
         ↔ ∃ td', downloadTwin api url = Returns td'
                  ∧ snd (addTwin td' (storage st)) = None
                  ∧ Msg.loaded td' = Msg.loaded td)
  ∧ (∀ e, In (SendMessage player (Msg.importFailed e)) effs
          ↔ ∃ e', Msg.importFailed e' = Msg.importFailed e
                  ∧ (downloadTwin api url = Throws e'
                     ∨ ∃ td, downloadTwin api url = Returns td
                             ∧ snd (addTwin td (storage st)) = Some e')).
Proof.
  intros effs. subst effs. unfold runTask.
  destruct (downloadTwin api url) as [td0 | e0]; cbn [snd In].
  - destruct (addTwin td0 (storage st)) as [s' [e0 |]] eqn:Hadd;
      cbn [snd In].
    + split.
      * intros td. split.
        -- intros [Hu | [Hu | []]]; [discriminate |].
           apply SendMessage_line in Hu. exfalso.
           exact (loaded_not_importFailed td e0 (eq_sym Hu)).
        -- intros (td' & Hd & Ha & _). injection Hd as <-.
           rewrite Hadd in Ha. discriminate.
      * intros e. split.
        -- intros [Hu | [Hu | []]]; [discriminate |].
           apply SendMessage_line in Hu. exists e0. split; [exact Hu |].
           right. exists td0. rewrite Hadd. auto.
        -- intros (e' & He & [Hd | (td & Hd & Ha)]); [discriminate |].
           injection Hd as <-. rewrite Hadd in Ha. injection Ha as <-.
           right. left. rewrite He. reflexivity.
    + split.
      * intros td. split.
        -- intros [Hu | [Hu | Hin]]; [discriminate | |].
           ++ apply SendMessage_line in Hu. exists td0.
              rewrite Hadd. auto.
           ++ destruct (negb (KString.isNullOrEmpty (minecraft_skin_url td0)));
                [| destruct Hin].
              destruct Hin as [Hu | []]. apply SendMessage_line in Hu.
              exfalso. exact (loaded_not_skin td td0 (eq_sym Hu)).
        -- intros (td' & Hd & _ & Hl). injection Hd as <-.
           right. left. rewrite Hl. reflexivity.
      * intros e. split.
        -- intros [Hu | [Hu | Hin]]; [discriminate | |].
           ++ apply SendMessage_line in Hu. exfalso.
              exact (loaded_not_importFailed td0 e Hu).
           ++ destruct (negb (KString.isNullOrEmpty (minecraft_skin_url td0)));
                [| destruct Hin].
              destruct Hin as [Hu | []]. apply SendMessage_line in Hu.
              exfalso. exact (skin_not_importFailed td0 e Hu).
        -- intros (e' & _ & [Hd | (td & Hd & Ha)]); [discriminate |].
           injection Hd as <-. rewrite Hadd in Ha. discriminate.
  - split.
    + intros td. split.
      * intros [Hu | [Hu | []]]; [discriminate |].
        apply SendMessage_line in Hu. exfalso.
        exact (loaded_not_importFailed td e0 (eq_sym Hu)).
      * intros (td' & Hd & _). discriminate.
    + intros e. split.
      * intros [Hu | [Hu | []]]; [discriminate |].
        apply SendMessage_line in Hu. exists e0. auto.
      * intros (e' & He & [Hd | (td & Hd & _)]); [| discriminate].
        injection Hd as <-. right. left. rewrite He. reflexivity.
Qed.

(** X6.  No completion touches the registry or the entities: whatever the
    service answers, the same names are spawned after a completion as before
    it; a chat completion leaves the whole state as it is. *)
Theorem completion_keeps_registry (api : TwinAPI) (t : Task) st :
  spawnedEntities (fst (runTask api t st)) = spawnedEntities st
  ∧ entities (fst (runTask api t st)) = entities st
  ∧ (∀ n, isSpawned n (fst (runTask api t st)) = isSpawned n st)
  ∧ (∀ player td msg, t = ChatJob player td msg →
       fst (runTask api t st) = st).
Proof.
  assert (Hkeep : spawnedEntities (fst (runTask api t st)) = spawnedEntities st
                  ∧ entities (fst (runTask api t st)) = entities st).
  { destruct t as [player url | player td msg]; simpl.
    - destruct (downloadTwin api url) as [td | e]; [| auto].
      destruct (addTwin td (storage st)) as [s' [e |]]; auto.
    - destruct (sendMessage api (api_endpoint td) (twin_id td) msg); auto. }
  destruct Hkeep as [Hreg Hents]. repeat split; try assumption.
  - intros n. unfold isSpawned. rewrite Hreg, Hents. reflexivity.
  - intros player td msg ->. simpl.
    destruct (sendMessage api (api_endpoint td) (twin_id td) msg);
      reflexivity.
Qed.

End CompletionFacts.

(** The theorem at work: an endpoint without the chat path. *)
Lemma audio_base_without_chat_path_witness :
  fullAudioUrl SampleMore.bare "/clip.mp3"
  = "https://twins.example/chat/clip.mp3".
Proof.
  rewrite (audio_base_without_chat_path SampleMore.bare "/clip.mp3");
    reflexivity.
Defined.

(** ** Further properties of listing, spawning and removing *)

Section LifecycleFacts.

Context {Storage : Type} `{TwinStorage Storage}.

Implicit Types (st : State Storage) (player : Player) (n m msg : string).

Lemma listLine_status (td : TwinData) :
  Msg.listLine td true ≠ Msg.listLine td false.
Proof.
  unfold Msg.listLine. intros Heq.
  repeat apply String.app_inj in Heq. discriminate.
Qed.

Lemma one_line (p q : Player) (a b : string) :
  [SendMessage p a] = [SendMessage q b] → a = b.
Proof. intros Heq. congruence. Qed.

Lemma spawn_rejected_iff player n created st :
  isSpawned n st = true
  ↔ effects (spawnTwin (Some player) n created st)
    = [SendMessage player (Msg.alreadySpawned n)].
Proof.
  split.
  - intros Hl. rewrite spawnTwin_live by exact Hl. reflexivity.
  - unfold spawnTwin, spawnTwin_check, spawnTwin_create.
    destruct (isSpawned n st); [reflexivity |].
    destruct (getTwinByName n (storage st)) as [td |]; cbn [effects done_].
    + destruct created; cbn [effects done_]; intros Heq.
      * discriminate.
      * apply one_line in Heq. exfalso.
        exact (createFailed_not_alreadySpawned n Heq).
    + intros Heq. apply one_line in Heq.
      exfalso. exact (alreadySpawned_not_notFound n n (eq_sym Heq)).
Qed.

Lemma lookup_map_Some {A B : Type} (f : A → B) (l : list A) (k : nat) (x : A) :
  l !! k = Some x → map f l !! k = Some (f x).
Proof.
  revert k. induction l as [| a l IH]; intros [| k] Hk; try discriminate.
  - injection Hk as ->. reflexivity.
  - exact (IH k Hk).
Qed.

(** X7.  What the list command shows.  With no profile stored it sends the
    no-twins line alone.  Otherwise it sends the header and one line per
    stored profile, in the order of the directory; the line of a profile
    says [(Spawned)] exactly when a spawn of its name would be turned down
    as already spawned. *)
Theorem list_marks_spawned player st (created : bool) :
  let effs := effects (listTwins (Some player) st) in
  (load (storage st) = [] → effs = [SendMessage player Msg.noTwins])
  ∧ (load (storage st) ≠ [] →
     length effs = S (length (load (storage st)))
     ∧ effs !! 0 = Some (SendMessage player Msg.listHeader))
  ∧ (∀ k td, load (storage st) !! k = Some td →
       ∃ spawned,
         effs !! S k = Some (SendMessage player (Msg.listLine td spawned))
         ∧ (spawned = true
            ↔ effects (spawnTwin (Some player) (name td) created st)
              = [SendMessage player (Msg.alreadySpawned (name td))])
         ∧ Msg.listLine td true ≠ Msg.listLine td false).
Proof.
  intros effs. subst effs. unfold listTwins.
  destruct (load (storage st)) as [| td0 twins] eqn:Hload.
  - split; [reflexivity |]. split; [congruence |].
    intros k td Hk. rewrite lookup_nil in Hk. discriminate.
  - split; [discriminate |]. cbn [effects done_]. split.
    + intros _. split; [| reflexivity].
      cbn [length]. rewrite length_map. reflexivity.
    + intros k td Hk. exists (isSpawned (name td) st). split; [| split].
      * exact (lookup_map_Some _ (td0 :: twins) k td Hk).
      * apply spawn_rejected_iff.
      * apply listLine_status.
Qed.

Lemma spawnTwin_frame src n m created st :
  registry_wf st → m ≠ n →
  isSpawned m (after (spawnTwin src n created st)) = isSpawned m st.
Proof.
  intros Hwf Hne. destruct src as [player |]; [| reflexivity].
  unfold spawnTwin, spawnTwin_check.
  destruct (isSpawned n st); [reflexivity |].
  destruct (getTwinByName n (storage st)) as [td |]; [| reflexivity].
  destruct created; [| reflexivity].
  unfold isSpawned. cbn [spawnTwin_create after done_ spawnedEntities entities].
  rewrite lookup_insert_ne by congruence.
  destruct (spawnedEntities st !! m) as [r |] eqn:Hr; [| reflexivity].
  destruct (Hwf m r Hr) as (e & He & _).
  rewrite lookup_app_l by (eapply lookup_lt_Some; exact He). reflexivity.
Qed.

Lemma removeTwin_frame src n m st :
  registry_wf st → m ≠ n →
  isSpawned m (after (removeTwin src n st)) = isSpawned m st.
Proof.
  intros Hwf Hne. destruct src as [player |]; [| reflexivity].
  unfold removeTwin. destruct (isSpawned n st); [| reflexivity].
  cbn [negb after done_].
  destruct (spawnedEntities st !! n) as [r |] eqn:Hr; [| reflexivity].
  unfold isSpawned. cbn [spawnedEntities entities].
  rewrite lookup_delete_ne by congruence.
  destruct (spawnedEntities st !! m) as [r' |] eqn:Hr'; [| reflexivity].
  destruct (Hwf n r Hr) as (e & He & Hn).
  destruct (Hwf m r' Hr') as (e' & He' & Hm).
  rewrite list_lookup_alter_ne; [reflexivity |].
  intros ->. congruence.
Qed.

(** X8.  In every state a session reaches, spawning or removing one name
    does not change whether another name is spawned. *)
Theorem other_names_unaffected
    (s0 : Storage) (evs : list Event) src n m (created : bool) :
  m ≠ n →
  let st := state (fst (run evs (initial s0))) in
  isSpawned m (after (spawnTwin src n created st)) = isSpawned m st
  ∧ isSpawned m (after (removeTwin src n st)) = isSpawned m st.
Proof.
  intros Hne st.
  destruct (consistent_run evs (initial s0) (consistent_initial s0))
    as [Hwf _].
  split; [apply spawnTwin_frame | apply removeTwin_frame]; assumption.
Qed.

Lemma removeTwin_storage src n st :
  storage (after (removeTwin src n st)) = storage st.
Proof.
  destruct src as [player |]; [| reflexivity]. unfold removeTwin.
  destruct (isSpawned n st); [| reflexivity]. cbn [negb after done_].
  destruct (spawnedEntities st !! n); reflexivity.
Qed.

(** X9.  A removed name can be spawned again: after a remove of a name
    whose profile is stored, whatever the remove found (a live instance, a
    stale entry or nothing), a spawn of the name with the creation
    succeeding sends the success lines and the name is spawned. *)
Theorem respawn_after_remove player player' n st (td : TwinData) :
  getTwinByName n (storage st) = Some td →
  let st1 := after (removeTwin (Some player) n st) in
  let r := spawnTwin (Some player') n true st1 in
  effects r = spawnedLines player' td
  ∧ isSpawned n (after r) = true
  ∧ spawnedEntities (after r) !! n = Some (length (entities st)).
Proof.
  intros Htd st1 r.
  assert (Hl : isSpawned n st1 = false) by apply removeTwin_then_not_live.
  assert (Htd1 : getTwinByName n (storage st1) = Some td).
  { unfold st1. rewrite removeTwin_storage. exact Htd. }
  assert (Hlen : length (entities st1) = length (entities st)).
  { unfold st1, removeTwin. destruct (isSpawned n st); [| reflexivity].
    cbn [negb after done_].
    destruct (spawnedEntities st !! n); [| reflexivity].
    cbn [entities]. apply length_alter. }
  subst r. rewrite (spawnTwin_success player' n st1 td Hl Htd1).
  cbn [effects after done_ spawnedEntities]. split; [reflexivity |].
  split; [apply spawned_is_live |].
  rewrite lookup_insert_eq, Hlen. reflexivity.
Qed.

(** X10.  A spawn followed by a remove gives the registry back: for a name
    that is not spawned and has a profile, after the spawn and the remove
    the registry is the one from before without the name (the very same
    registry if the name had no entry), the directory is unchanged, and
    the heap has one more entity, the discarded instance. *)
Theorem spawn_then_remove player player' n st (td : TwinData) :
  isSpawned n st = false →
  getTwinByName n (storage st) = Some td →
  let st2 := after (removeTwin (Some player') n
                      (after (spawnTwin (Some player) n true st))) in
  spawnedEntities st2 = delete n (spawnedEntities st)
  ∧ (spawnedEntities st !! n = None → spawnedEntities st2 = spawnedEntities st)
  ∧ storage st2 = storage st
  ∧ entities st2 = entities st ++ [discard (placed player n)].
Proof.
  intros Hl Htd st2.
  assert (Hrem :
    removeTwin (Some player') n (after (spawnTwin (Some player) n true st))
    = done_ {| storage := storage st;
               spawnedEntities :=
                 delete n (<[n := length (entities st)]> (spawnedEntities st));
               entities :=
                 alter discard (length (entities st))
                   (entities st ++ [placed player n]) |}
            [SendMessage player' (Msg.despawned n)]).
  { rewrite (spawnTwin_success player n st td Hl Htd).
    unfold done_ at 1. cbn [after].
    rewrite (removeTwin_live player' n _ (length (entities st)));
      [reflexivity | apply spawned_is_live | apply lookup_insert_eq]. }
  subst st2. rewrite Hrem.
  cbn [after done_ spawnedEntities entities storage].
  rewrite delete_insert_eq.
  split; [reflexivity |]. split; [intros Hnone; apply delete_id; exact Hnone |].
  split; [reflexivity |].
  replace (length (entities st)) with (length (entities st) + 0) at 1 by lia.
  rewrite alter_app_r. reflexivity.
Qed.

(** X11.  In every state a session reaches, a name is reported as spawned
    exactly when the heap holds a live instance of it, and every registry
    entry names an entity of the heap. *)
Theorem spawned_iff_live_instance (s0 : Storage) (evs : list Event) n :
  let st := state (fst (run evs (initial s0))) in
  (isSpawned n st = true ↔ ∃ r, liveInstance st n r)
  ∧ (∀ r : nat, spawnedEntities st !! n = Some r →
                r < length (entities st)).
Proof.
  intros st.
  destruct (consistent_run evs (initial s0) (consistent_initial s0))
    as [Hwf Hlive].
  fold st in Hwf, Hlive. split; [split |].
  - intros Hl. destruct (isSpawned_lookup n st Hl) as (r & e & Hr & He & Ha).
    exists r, e. destruct (Hwf n r Hr) as (e' & He' & Hn).
    rewrite He in He'. injection He' as <-. auto.
  - intros [r Hinst]. exact (live_is_spawned st n r Hlive Hinst).
  - intros r Hr. destruct (Hwf n r Hr) as (e & He & _).
    eapply lookup_lt_Some. exact He.
Qed.

End LifecycleFacts.

(** The theorem at work: removing [echo] while [maya] is spawned. *)
Lemma other_names_unaffected_witness :
  let st := state (fst (run [Spawn (Some Sample.steve) "maya" true]
                          (initial (Storage := list TwinData)
                             [Sample.maya]))) in
  isSpawned "maya" (after (removeTwin (Some Sample.alex) "echo" st)) = true.
Proof.
  intros st.
  destruct (other_names_unaffected (Storage := list TwinData)
              [Sample.maya] [Spawn (Some Sample.steve) "maya" true]
              (Some Sample.alex) "echo" "maya" true) as [_ Hremove];
    [discriminate |].
  fold st in Hremove. rewrite Hremove. reflexivity.
Defined.

(** The theorem at work: [maya] is removed while spawned and spawned
    again. *)
Lemma respawn_after_remove_witness :
  isSpawned "maya"
    (after (spawnTwin (Some Sample.alex) "maya" true
              (after (removeTwin (Some Sample.steve) "maya"
                        SampleMore.spawned))))
  = true.
Proof.
  destruct (respawn_after_remove (Storage := list TwinData)
              Sample.steve Sample.alex "maya" SampleMore.spawned Sample.maya)
    as (_ & Hlive & _); [reflexivity |].
  exact Hlive.
Defined.

(** The theorem at work: [maya] is spawned and removed. *)
Lemma spawn_then_remove_witness :
  spawnedEntities
    (after (removeTwin (Some Sample.alex) "maya"
              (after (spawnTwin (Some Sample.steve) "maya" true
                        Sample.imported))))
  = spawnedEntities Sample.imported.
Proof.
  destruct (spawn_then_remove (Storage := list TwinData)
              Sample.steve Sample.alex "maya" Sample.imported Sample.maya)
    as (_ & Hsame & _); [reflexivity | reflexivity |].
  apply Hsame. reflexivity.
Defined.

(** ** What a session keeps of its entities, and whom it writes to *)

Section SessionFacts.

Context {Storage : Type} `{TwinStorage Storage}.

Implicit Types (st : State Storage) (ses : Session Storage)
  (player : Player) (n msg : string).

Lemma becameOf_refl (e : TwinEntity) : becameOf e e.
Proof. unfold becameOf. auto 10. Qed.

Lemma becameOf_trans (e1 e2 e3 : TwinEntity) :
  becameOf e1 e2 → becameOf e2 e3 → becameOf e1 e3.
Proof.
  unfold becameOf.
  intros (? & ? & ? & ? & ? & ? & ?) (? & ? & ? & ? & ? & ? & ?).
  repeat split; try congruence. auto.
Qed.

Lemma becameOf_ended (f : TwinEntity → TwinEntity) (e : TwinEntity) :
  f = discard ∨ f = terminate → becameOf e (f e).
Proof.
  intros [-> | ->]; unfold becameOf; simpl; repeat split; discriminate.
Qed.

Lemma alter_keeps (f : TwinEntity → TwinEntity) (r0 : nat)
    (ents : list TwinEntity) (r : nat) (e : TwinEntity) :
  f = discard ∨ f = terminate →
  ents !! r = Some e →
  ∃ e', alter f r0 ents !! r = Some e' ∧ becameOf e e'.
Proof.
  intros Hf He. destruct (decide (r0 = r)) as [-> | Hne].
  - exists (f e). rewrite list_lookup_alter_eq, He.
    split; [reflexivity | apply becameOf_ended; exact Hf].
  - exists e. rewrite list_lookup_alter_ne by exact Hne.
    split; [exact He | apply becameOf_refl].
Qed.

Lemma step_keeps_entities (ev : Event) ses (r : nat) (e : TwinEntity) :
  entities (state ses) !! r = Some e →
  ∃ e', entities (state (fst (step ev ses))) !! r = Some e' ∧ becameOf e e'.
Proof.
  intros He.
  assert (Hsame : ∃ e', entities (state ses) !! r = Some e' ∧ becameOf e e')
    by (exists e; split; [exact He | apply becameOf_refl]).
  destruct ev as [src l | src | src n c | src n m | src n | api i | r0];
    cbn [step issue fst state].
  - destruct src; exact Hsame.
  - destruct src as [p |]; [| exact Hsame]. unfold listTwins.
    destruct (load (storage (state ses))); exact Hsame.
  - destruct src as [p |]; [| exact Hsame]. unfold spawnTwin, spawnTwin_check.
    destruct (isSpawned n (state ses)); [exact Hsame |].
    destruct (getTwinByName n (storage (state ses))); [| exact Hsame].
    destruct c; [| exact Hsame].
    cbn [spawnTwin_create after done_ entities]. exists e.
    split; [| apply becameOf_refl].
    rewrite lookup_app_l by (eapply lookup_lt_Some; exact He). exact He.
  - destruct src as [p |]; [| exact Hsame]. unfold chatWithTwin.
    destruct (getTwinByName n (storage (state ses))); exact Hsame.
  - destruct src as [p |]; [| exact Hsame]. unfold removeTwin.
    destruct (isSpawned n (state ses)); [| exact Hsame].
    cbn [negb after done_].
    destruct (spawnedEntities (state ses) !! n); [| exact Hsame].
    cbn [entities]. apply alter_keeps; auto.
  - destruct (pending ses !! i) as [t |]; [| exact Hsame].
    pose proof (completion_keeps_registry api t (state ses)) as (_ & Hents & _).
    destruct (runTask api t (state ses)) as [st' effs].
    cbn [fst state] in *. rewrite Hents. exact Hsame.
  - cbn [entities]. apply alter_keeps; auto.
Qed.

(** X12.  Along a session no entity is lost, renamed or moved, and none
    that is dead comes back to life: an entity of the heap is still there,
    under the same reference, after any further commands, completions and
    deaths, with its name, place and orientation, and it is alive then only
    if it was alive before. *)
Theorem entities_persist (evs : list Event) ses (r : nat) (e : TwinEntity) :
  entities (state ses) !! r = Some e →
  ∃ e', entities (state (fst (run evs ses))) !! r = Some e' ∧ becameOf e e'.
Proof.
  revert ses e. induction evs as [| ev evs IH]; intros ses e He.
  - exists e. split; [exact He | apply becameOf_refl].
  - cbn [run].
    destruct (step_keeps_entities ev ses r e He) as (e1 & He1 & Hb1).
    destruct (step ev ses) as [ses1 effs1]. cbn [fst] in He1.
    destruct (IH ses1 e1 He1) as (e2 & He2 & Hb2).
    destruct (run evs ses1) as [ses2 effs2]. cbn [fst] in *.
    exists e2. split; [exact He2 | exact (becameOf_trans e e1 e2 Hb1 Hb2)].
Qed.

Lemma addressedTo_one player (line : string) :
  addressedTo player [SendMessage player line].
Proof. intros to l [Heq | []]. congruence. Qed.

Lemma addressedTo_nil player : addressedTo player [].
Proof. intros to l []. Qed.

Lemma addressedTo_cons player (eff : Effect) (effs : list Effect) :
  (∀ to l, eff = SendMessage to l → to = player) →
  addressedTo player effs → addressedTo player (eff :: effs).
Proof.
  intros Hhead Htail to l [Heq | Hin]; [eauto | exact (Htail to l Hin)].
Qed.

(** X13.  A command writes only to the player who issued it, and so does
    what it launches: every chat line a handler sends goes to the issuer,
    the coroutine a handler launches is launched for the issuer, and every
    chat line a coroutine sends, whenever it runs and whatever the service
    answers, goes to the player it was launched for. *)
Theorem only_issuer_is_messaged player st :
  (∀ l, addressedTo player (effects (importTwin (Some player) l st)))
  ∧ addressedTo player (effects (listTwins (Some player) st))
  ∧ (∀ n created,
       addressedTo player (effects (spawnTwin (Some player) n created st)))
  ∧ (∀ n msg,
       addressedTo player (effects (chatWithTwin (Some player) n msg st)))
  ∧ (∀ n, addressedTo player (effects (removeTwin (Some player) n st)))
  ∧ (∀ l t, launched (importTwin (Some player) l st) = Some t →
            taskOwner t = player)
  ∧ (∀ n msg t, launched (chatWithTwin (Some player) n msg st) = Some t →
                taskOwner t = player)
  ∧ (launched (listTwins (Some player) st) = None
     ∧ (∀ n created, launched (spawnTwin (Some player) n created st) = None)
     ∧ ∀ n, launched (removeTwin (Some player) n st) = None)
  ∧ (∀ api t st1, addressedTo (taskOwner t) (snd (runTask api t st1)))
  ∧ (∀ l api st1 t,
       launched (importTwin (Some player) l st) = Some t →
       addressedTo player (snd (runTask api t st1)))
  ∧ (∀ n msg api st1 t,
       launched (chatWithTwin (Some player) n msg st) = Some t →
       addressedTo player (snd (runTask api t st1))).
Proof.
  assert (Hrun : ∀ api t (st1 : State Storage),
            addressedTo (taskOwner t) (snd (runTask api t st1))).
  { intros api [p url | p td msg] st1; cbn [taskOwner]; unfold runTask.
    - destruct (downloadTwin api url) as [td | e].
      + destruct (addTwin td (storage st1)) as [s' [e |]]; cbn [snd].
        * intros to line [Heq | [Heq | []]]; congruence.
        * destruct (negb (KString.isNullOrEmpty (minecraft_skin_url td)));
            intros to line Hin; cbn [In] in Hin;
            repeat (destruct Hin as [Heq | Hin]; [congruence |]);
            destruct Hin.
      + cbn [snd]. intros to line [Heq | [Heq | []]]; congruence.
    - destruct (sendMessage api (api_endpoint td) (twin_id td) msg)
        as [response | e]; cbn [snd].
      + destruct (audioUrl response) as [audio |].
        * destruct (negb (KString.isNullOrEmpty (Some audio)));
            intros to line Hin; cbn [In] in Hin;
            repeat (destruct Hin as [Heq | Hin]; [congruence |]);
            destruct Hin.
        * intros to line [Heq | [Heq | []]]; congruence.
      + intros to line [Heq | [Heq | [Heq | []]]]; congruence. }
  assert (Himport : ∀ l t, launched (importTwin (Some player) l st) = Some t →
                           taskOwner t = player).
  { intros l t Ht. cbn [importTwin launched] in Ht. injection Ht as <-.
    reflexivity. }
  assert (Hchat : ∀ n msg t,
            launched (chatWithTwin (Some player) n msg st) = Some t →
            taskOwner t = player).
  { intros n msg t. unfold chatWithTwin.
    destruct (getTwinByName n (storage st)); cbn [launched done_];
      [| discriminate].
    intros Ht. injection Ht as <-. reflexivity. }
  split; [| split; [| split; [| split; [| split]]]].
  - intros l. apply addressedTo_one.
  - unfold listTwins. destruct (load (storage st)) as [| td twins];
      [apply addressedTo_one |].
    cbn [effects done_]. intros to line [Heq | Hin]; [congruence |].
    apply in_map_iff in Hin as (x & Heq & _). congruence.
  - intros n created. unfold spawnTwin, spawnTwin_check.
    destruct (isSpawned n st); [apply addressedTo_one |].
    destruct (getTwinByName n (storage st)); [| apply addressedTo_one].
    destruct created; [| apply addressedTo_one].
    cbn [spawnTwin_create effects done_].
    intros to line [Heq | [Heq | []]]; congruence.
  - intros n msg. unfold chatWithTwin.
    destruct (getTwinByName n (storage st)); apply addressedTo_one.
  - intros n. unfold removeTwin.
    destruct (isSpawned n st); apply addressedTo_one.
  - split; [exact Himport |]. split; [exact Hchat |].
    split; [| split; [exact Hrun | split]].
    + split; [| split].
      * unfold listTwins. destruct (load (storage st)); reflexivity.
      * intros n created. apply spawnTwin_launched.
      * intros n. unfold removeTwin.
        destruct (isSpawned n st); reflexivity.
    + intros l api st1 t Ht. rewrite <- (Himport l t Ht). apply Hrun.
    + intros n msg api st1 t Ht. rewrite <- (Hchat n msg t Ht). apply Hrun.
Qed.

End SessionFacts.

(** The theorem at work: the instance of [maya] through a removal and a
    second spawn. *)
Lemma entities_persist_witness :
  ∃ e',
    entities
      (state (fst (run [Remove (Some Sample.steve) "maya";
                        Spawn (Some Sample.alex) "maya" true]
                     {| state := SampleMore.spawned; pending := [] |})))
      !! 0
    = Some e'
    ∧ twinName e' = Some "maya" ∧ alive e' = false.
Proof.
  destruct (entities_persist (Storage := list TwinData)
              [Remove (Some Sample.steve) "maya";
               Spawn (Some Sample.alex) "maya" true]
              {| state := SampleMore.spawned; pending := [] |}
              0 (placed Sample.steve "maya") eq_refl)
    as (e' & He' & Hname & _).
  exists e'. split; [exact He' |]. split; [exact Hname |].
  vm_compute in He'. injection He' as <-. reflexivity.
Defined.

(** * Properties of the web application *)

(** ** The UUID test of the personality route *)

Module RouteFacts.

Import JS Route.

Lemma matchRep_0 (p : N → bool) (s : jstring) : matchRep p 0 s = Some s.
Proof. reflexivity. Qed.

Lemma matchRep_nil (p : N → bool) (k : nat) : matchRep p (S k) [] = None.
Proof. reflexivity. Qed.

Lemma matchRep_S (p : N → bool) (k : nat) (c : N) (s : jstring) :
  matchRep p (S k) (c :: s) = if p c then matchRep p k s else None.
Proof. reflexivity. Qed.

Ltac next_unit H :=
  match type of H with
  | context [matchRep ?p (S ?k) ?s] =>
      is_var s;
      destruct s as [| ? s];
      [rewrite matchRep_nil in H; cbv beta iota in H; discriminate |];
      rewrite matchRep_S in H;
      match type of H with
      | context [if ?b then _ else _] =>
          destruct b eqn:?; [| cbv beta iota in H; discriminate]
      end;
      rewrite ?matchRep_0 in H; cbv beta iota in H
  end.

Ltac class_at Hshape i :=
  let Hi := fresh "Hi" in
  pose proof (Hshape i _ eq_refl) as Hi; cbn [Nat.eqb orb] in Hi;
  rewrite ?matchRep_0; cbv beta iota;
  rewrite matchRep_S, Hi; clear Hi.

(** X14.  The UUID test accepts exactly the strings of 36 code units with a
    hyphen at the positions 8, 13, 18 and 23 and a digit or a letter from a
    to f, in either case, everywhere else. *)
Theorem uuid_test_shape (s : jstring) :
  test uuidRegex s = true
  ↔ length s = 36
    ∧ ∀ i c, s !! i = Some c →
        if ((i =? 8) || (i =? 13) || (i =? 18) || (i =? 23))%nat
        then isDash c = true
        else isHex c = true.
Proof.
  split.
  - intros Htest. unfold test, uuidRegex in Htest.
    cbn [matchSeq] in Htest.
    do 36 next_unit Htest.
    destruct s; [| discriminate]. split; [reflexivity |].
    intros i c Hi.
    do 36 (destruct i as [| i];
           [injection Hi as <-; cbn [Nat.eqb orb]; assumption |]).
    discriminate.
  - intros [Hlen Hshape].
    do 36 (destruct s as [| ? s]; [discriminate |]).
    destruct s; [| discriminate].
    unfold test, uuidRegex. cbn [matchSeq].
    class_at Hshape 0. class_at Hshape 1. class_at Hshape 2.
    class_at Hshape 3. class_at Hshape 4. class_at Hshape 5.
    class_at Hshape 6. class_at Hshape 7. class_at Hshape 8.
    class_at Hshape 9. class_at Hshape 10. class_at Hshape 11.
    class_at Hshape 12. class_at Hshape 13. class_at Hshape 14.
    class_at Hshape 15. class_at Hshape 16. class_at Hshape 17.
    class_at Hshape 18. class_at Hshape 19. class_at Hshape 20.
    class_at Hshape 21. class_at Hshape 22. class_at Hshape 23.
    class_at Hshape 24. class_at Hshape 25. class_at Hshape 26.
    class_at Hshape 27. class_at Hshape 28. class_at Hshape 29.
    class_at Hshape 30. class_at Hshape 31. class_at Hshape 32.
    class_at Hshape 33. class_at Hshape 34. class_at Hshape 35.
    reflexivity.
Qed.

Lemma matchRep_map (f : N → N) (p : N → bool) (k : nat) (s : jstring) :
  (∀ c, p (f c) = p c) →
  matchRep p k (map f s) = option_map (map f) (matchRep p k s).
Proof.
  intros Hp. revert s. induction k as [| k IH]; intros s; [reflexivity |].
  destruct s as [| c s]; [reflexivity |].
  cbn [map]. rewrite !matchRep_S, Hp.
  destruct (p c); [apply IH | reflexivity].
Qed.

Lemma matchSeq_map (f : N → N) (pieces : list Piece) (s : jstring) :
  Forall (fun pk : Piece => ∀ c, fst pk (f c) = fst pk c) pieces →
  matchSeq pieces (map f s) = option_map (map f) (matchSeq pieces s).
Proof.
  intros Hall. revert s.
  induction Hall as [| [p k] pieces Hp _ IH]; intros s; [reflexivity |].
  cbn [matchSeq]. rewrite (matchRep_map f p k s Hp).
  destruct (matchRep p k s) as [rest |]; [apply IH | reflexivity].
Qed.

Lemma test_map (f : N → N) (pieces : list Piece) (s : jstring) :
  Forall (fun pk : Piece => ∀ c, fst pk (f c) = fst pk c) pieces →
  test pieces (map f s) = test pieces s.
Proof.
  intros Hall. unfold test. rewrite (matchSeq_map f pieces s Hall).
  destruct (matchSeq pieces s) as [[| c rest] |]; reflexivity.
Qed.

Lemma isHex_spec (c : N) :
  isHex c = true
  ↔ (48 ≤ c ∧ c ≤ 57 ∨ 97 ≤ c ∧ c ≤ 102 ∨ 65 ≤ c ∧ c ≤ 70)%N.
Proof.
  unfold isHex. rewrite !orb_true_iff, !andb_true_iff, !N.leb_le. tauto.
Qed.

Lemma isDash_spec (c : N) : isDash c = true ↔ c = 45%N.
Proof. unfold isDash. apply N.eqb_eq. Qed.

Lemma bool_eq_iff (a b : bool) : (a = true ↔ b = true) → a = b.
Proof. destruct a, b; intros [H1 H2]; auto; discriminate (H1 eq_refl) || discriminate (H2 eq_refl). Qed.

Lemma uuid_classes_ignore (f : N → N) :
  (∀ c, f c = c ∨ (97 ≤ c ∧ c ≤ 122 ∧ f c = c - 32)%N
        ∨ (65 ≤ c ∧ c ≤ 90 ∧ f c = c + 32)%N) →
  Forall (fun pk : Piece => ∀ c, fst pk (f c) = fst pk c) uuidRegex.
Proof.
  intros Hf.
  assert (Hhex : ∀ c, isHex (f c) = isHex c).
  { intros c. apply bool_eq_iff. rewrite !isHex_spec.
    destruct (Hf c) as [-> | [(? & ? & ->) | (? & ? & ->)]]; lia. }
  assert (Hdash : ∀ c, isDash (f c) = isDash c).
  { intros c. apply bool_eq_iff. rewrite !isDash_spec.
    destruct (Hf c) as [-> | [(? & ? & ->) | (? & ? & ->)]]; lia. }
  unfold uuidRegex. repeat constructor; assumption.
Qed.

(** X15.  The UUID test does not look at the case of the letters: a string
    and its upper-case and lower-case forms are accepted or turned down
    alike. *)
Theorem uuid_test_ignores_case (s : jstring) :
  test uuidRegex (asciiUpper s) = test uuidRegex s
  ∧ test uuidRegex (asciiLower s) = test uuidRegex s.
Proof.
  split; unfold asciiUpper, asciiLower; apply test_map;
    apply uuid_classes_ignore; intros c.
  - destruct ((97 <=? c) && (c <=? 122))%N eqn:Hc; [| auto].
    apply andb_true_iff in Hc as [H1 H2].
    apply N.leb_le in H1. apply N.leb_le in H2. auto.
  - destruct ((65 <=? c) && (c <=? 90))%N eqn:Hc; [| auto].
    apply andb_true_iff in Hc as [H1 H2].
    apply N.leb_le in H1. apply N.leb_le in H2. auto.
Qed.

Section Handlers.

Context {Value : Type} `{Values Value}.

Lemma test_nil : test uuidRegex [] = false.
Proof. reflexivity. Qed.

(** X16.  [GET] reaches the database only with an identifier of UUID shape
    that is not the admin's, and then with one lookup of that identifier
    and nothing else.  A missing, empty or ill-formed identifier (a
    username, say) is answered with status 400, and status 400 is given in
    these cases only, before any lookup. *)
Theorem GET_asks_database_only_for_uuid
    (prisma : Prisma Value) (now : jstring) (userId : option jstring) :
  let resp := fst (GET prisma now userId) in
  let calls := snd (GET prisma now userId) in
  (status resp = 400 ↔ ∀ id, userId = Some id → test uuidRegex id = false)
  ∧ (status resp = 400 → calls = [])
  ∧ (calls = []
     ∨ ∃ id, userId = Some id ∧ calls = [FindUnique id]
             ∧ test uuidRegex id = true ∧ id ≠ adminId).
Proof.
  intros resp calls. subst resp calls. unfold GET.
  destruct userId as [[| c id] |].
  - cbn [fst snd status json]. split; [| auto].
    split; [| reflexivity]. intros _ id' Hid. injection Hid as <-.
    apply test_nil.
  - destruct (test uuidRegex (c :: id)) eqn:Htest; cbn [negb].
    + assert (Hnot : ¬ ∀ id', Some (c :: id) = Some id' →
                              test uuidRegex id' = false).
      { intros Hall. rewrite (Hall _ eq_refl) in Htest. discriminate. }
      unfold strictEq. destruct (bool_decide (c :: id = adminId)) eqn:Hadm.
      * cbn [fst snd status json].
        split; [split; [discriminate | intros Hall; destruct (Hnot Hall)] |].
        auto.
      * apply bool_decide_eq_false in Hadm.
        destruct (findUnique prisma (c :: id)) as [[user |] | e];
          [destruct (negb (truthy user)) | |];
          cbn [fst snd status json];
          (split; [split; [discriminate | intros Hall; destruct (Hnot Hall)] |]);
          (split; [discriminate |]); right; exists (c :: id); auto.
    + cbn [fst snd status json]. split; [| auto].
      split; [| reflexivity]. intros _ id' Hid. injection Hid as <-.
      exact Htest.
  - cbn [fst snd status json]. split; [| auto].
    split; [| reflexivity]. intros _ id' Hid. discriminate.
Qed.

(** X17.  For an identifier of UUID shape, [GET] answers the admin's with
    the mock data and status 200 whatever the database holds; for any other
    it answers 200 with the row when the lookup gives a truthy one, 404 with
    the error [User not found] when the lookup gives [null] or a falsy
    value, and 500 with the error [Failed to fetch personality] and the
    message of the exception when the lookup throws. *)
Theorem GET_status
    (prisma : Prisma Value) (now : jstring) (id : jstring) :
  test uuidRegex id = true →
  (id = adminId → GET prisma now (Some id) = (json 200 (adminData now), []))
  ∧ (id ≠ adminId →
     let resp := fst (GET prisma now (Some id)) in
     let notFound :=
       {| status := 404;
          body := JObj [("error", JStr (lit "User not found"))] |} in
     (∀ user, findUnique prisma id = Done (Some user) → truthy user = true →
              resp = {| status := 200; body := JVal user |})
     ∧ (∀ user, findUnique prisma id = Done (Some user) →
                truthy user = false → resp = notFound)
     ∧ (findUnique prisma id = Done None → resp = notFound)
     ∧ (∀ e, findUnique prisma id = Raised e →
             resp = {| status := 500;
                       body := JObj [("error",
                                      JStr (lit "Failed to fetch personality"));
                                     ("details", JVal (e_message e))] |})
     ∧ (status resp = 200
        ↔ ∃ user, findUnique prisma id = Done (Some user)
                  ∧ truthy user = true)
     ∧ (status resp = 404
        ↔ findUnique prisma id = Done None
          ∨ ∃ user, findUnique prisma id = Done (Some user)
                    ∧ truthy user = false)
     ∧ (status resp = 500 ↔ ∃ e, findUnique prisma id = Raised e)).
Proof.
  intros Htest.
  assert (Hne : ∃ c id', id = c :: id').
  { destruct id as [| c id']; [discriminate | eauto]. }
  destruct Hne as (c & id' & ->). unfold GET. rewrite Htest. cbn [negb].
  unfold strictEq. split.
  - intros Hadm. rewrite bool_decide_eq_true_2 by exact Hadm. reflexivity.
  - intros Hadm. cbv zeta.
    rewrite bool_decide_eq_false_2 by exact Hadm.
    destruct (findUnique prisma (c :: id')) as [[user |] | e].
    + destruct (truthy user) eqn:Htruthy; cbn [negb fst status json].
      * split; [intros u Hu _; injection Hu as <-; reflexivity |].
        split; [intros u Hu Hf; injection Hu as <-; congruence |].
        split; [discriminate |].
        split; [discriminate |].
        split; [split; eauto |].
        split; [split; [discriminate |] |].
        { intros [Hnone | (u & Hu & Hf)]; [discriminate |].
          injection Hu as <-. congruence. }
        split; [discriminate | intros [e He]; discriminate].
      * split; [intros u Hu Ht; injection Hu as <-; congruence |].
        split; [intros u Hu _; reflexivity |].
        split; [discriminate |].
        split; [discriminate |].
        split; [split; [discriminate |] |].
        { intros (u & Hu & Ht). injection Hu as <-. congruence. }
        split; [split; [eauto | reflexivity] |].
        split; [discriminate | intros [e He]; discriminate].
    + cbn [fst status json].
      split; [discriminate |].
      split; [discriminate |].
      split; [reflexivity |].
      split; [discriminate |].
      split; [split; [discriminate | intros (u & Hu & _); discriminate] |].
      split; [split; [auto | reflexivity] |].
      split; [discriminate | intros [e He]; discriminate].
    + cbn [fst status json].
      split; [discriminate |].
      split; [discriminate |].
      split; [discriminate |].
      split; [intros e' He; injection He as <-; reflexivity |].
      split; [split; [discriminate | intros (u & Hu & _); discriminate] |].
      split; [split; [discriminate |] |].
      { intros [Hnone | (u & Hu & _)]; discriminate. }
      split; eauto.
Qed.

End Handlers.

Section Posting.

Context {Value : Type} `{Values Value}.

Implicit Types (prisma : Prisma Value) (apiKey : option jstring)
  (userId personalityData : Value) (memories : list Memory).

(** X18.  A [POST] that brings personality data saves it as it came and
    never reads the memories.  For the admin user nothing is written and
    the answer is the success message; for any other user one update of
    that user is issued and the answer is 200 exactly when the update went
    through. *)
Theorem POST_direct_save prisma apiKey userId personalityData :
  truthy userId = true →
  truthy personalityData = true →
  let run := POST prisma apiKey (Done (userId, personalityData)) in
  (asString userId = Some adminId →
     snd run = [] ∧ status (fst run) = 200)
  ∧ (asString userId ≠ Some adminId →
     snd run = [Update userId (JVal personalityData)]
     ∧ (status (fst run) = 200
        ↔ update prisma userId (JVal personalityData) = None)
     ∧ (status (fst run) = 500
        ↔ ∃ e, update prisma userId (JVal personalityData) = Some e)).
Proof.
  intros Hu Hp run. subst run. unfold POST. rewrite Hu, Hp. cbn [negb].
  split.
  - intros ->. unfold strictEq. rewrite bool_decide_eq_true_2 by reflexivity.
    cbn [negb fst snd status json]. auto.
  - intros Hadm.
    assert (Hnot : match asString userId with
                   | Some s => strictEq s adminId
                   | None => false
                   end = false).
    { destruct (asString userId) as [s |]; [| reflexivity].
      unfold strictEq. apply bool_decide_eq_false_2. congruence. }
    rewrite Hnot. cbn [negb].
    destruct (update prisma userId (JVal personalityData)) as [e |];
      cbn [fst snd status json saveFailed].
    + split; [reflexivity |].
      split; [split; discriminate | split; eauto].
    + split; [reflexivity |].
      split; [split; reflexivity |].
      split; [discriminate | intros [e He]; discriminate].
Qed.

(** X19.  A [POST] without personality data for a user who has memories
    reads the memories and issues one update of that user, the admin user
    included: with no API key (or an empty one) it stores the mock
    personality, with a key the personality built from the memories.  The
    key is not used otherwise: any two keys give the same run. *)
Theorem POST_generates_and_stores
    prisma apiKey userId personalityData (m : Memory) memories :
  truthy userId = true →
  truthy personalityData = false →
  findMany prisma userId = Done (m :: memories) →
  let run := POST prisma apiKey (Done (userId, personalityData)) in
  ((apiKey = None ∨ apiKey = Some []) →
     snd run = [FindMany userId; Update userId mockPersonality])
  ∧ (∀ key, apiKey = Some key → key ≠ [] →
       snd run
       = [FindMany userId;
          Update userId (personalityJson (buildPersonality (m :: memories)))]
       ∧ ∀ key', key' ≠ [] →
           POST prisma (Some key') (Done (userId, personalityData)) = run)
  ∧ (status (fst run) = 200
     ↔ ∃ data, snd run = [FindMany userId; Update userId data]
               ∧ update prisma userId data = None).
Proof.
  intros Hu Hp Hmem run. subst run. unfold POST.
  rewrite Hu, Hp, Hmem. cbn [negb]. unfold storeAndAnswer.
  split; [| split].
  - intros [-> | ->];
      destruct (update prisma userId mockPersonality); reflexivity.
  - intros key -> Hkey. destruct key as [| c key]; [congruence |].
    split.
    + destruct (update prisma userId
                  (personalityJson (buildPersonality (m :: memories))));
        reflexivity.
    + intros key' Hkey'. destruct key' as [| c' key']; [congruence |].
      reflexivity.
  - destruct apiKey as [[| c key] |].
    + destruct (update prisma userId mockPersonality) as [e |] eqn:Hup;
        cbn [fst snd status json saveFailed app].
      * split; [discriminate |]. intros (data & Hcalls & Hok).
        injection Hcalls as <-. congruence.
      * split; [| reflexivity]. intros _. eauto.
    + destruct (update prisma userId
                  (personalityJson (buildPersonality (m :: memories))))
        as [e |] eqn:Hup; cbn [fst snd status json saveFailed app].
      * split; [discriminate |]. intros (data & Hcalls & Hok).
        injection Hcalls as <-. congruence.
      * split; [| reflexivity]. intros _. eauto.
    + destruct (update prisma userId mockPersonality) as [e |] eqn:Hup;
        cbn [fst snd status json saveFailed app].
      * split; [discriminate |]. intros (data & Hcalls & Hok).
        injection Hcalls as <-. congruence.
      * split; [| reflexivity]. intros _. eauto.
Qed.

(** X20.  [POST] answers 400 exactly when the body has no user identifier,
    or has neither personality data nor, in the database, a memory of the
    user; in these cases nothing is written. *)
Theorem POST_bad_request
    prisma apiKey (parsed : Attempt Value (Value * Value)) :
  let run := POST prisma apiKey parsed in
  (status (fst run) = 400
   ↔ ∃ userId personalityData,
       parsed = Done (userId, personalityData)
       ∧ (truthy userId = false
          ∨ truthy userId = true ∧ truthy personalityData = false
            ∧ findMany prisma userId = Done []))
  ∧ (status (fst run) = 400 →
     ∀ id data, ¬ In (Update id data) (snd run)).
Proof.
  intros run. subst run. unfold POST.
  destruct parsed as [[userId personalityData] | e].
  2:{ cbn [fst snd status json saveFailed]. split; [| discriminate].
      split; [discriminate | intros (u & p & Hd & _); discriminate]. }
  destruct (truthy userId) eqn:Hu; cbn [negb].
  2:{ cbn [fst snd status json]. split.
      - split; [| reflexivity]. intros _. exists userId, personalityData. auto.
      - intros _ id data []. }
  destruct (truthy personalityData) eqn:Hp.
  - assert (Hno : ¬ ∃ u p, Done (Value := Value) (userId, personalityData) = Done (u, p)
                    ∧ (truthy u = false
                       ∨ truthy u = true ∧ truthy p = false
                         ∧ findMany prisma u = Done [])).
    { intros (u & p & Hd & Hcase). injection Hd as <- <-.
      destruct Hcase as [Hf | (_ & Hf & _)]; congruence. }
    destruct (negb _).
    + destruct (update prisma userId (JVal personalityData));
        cbn [fst snd status json saveFailed];
        (split; [split; [discriminate | intros Hex; destruct (Hno Hex)]
                | discriminate]).
    + cbn [fst snd status json].
      split; [split; [discriminate | intros Hex; destruct (Hno Hex)]
             | discriminate].
  - destruct (findMany prisma userId) as [[| m memories] | e] eqn:Hmem.
    + cbn [fst snd status json]. split.
      * split; [| reflexivity]. intros _.
        exists userId, personalityData. auto.
      * intros _ id data [Hc | []]. discriminate.
    + assert (Hno : ¬ ∃ u p, Done (Value := Value) (userId, personalityData) = Done (u, p)
                      ∧ (truthy u = false
                         ∨ truthy u = true ∧ truthy p = false
                           ∧ findMany prisma u = Done [])).
      { intros (u & p & Hd & Hcase). injection Hd as <- <-.
        destruct Hcase as [Hf | (_ & _ & Hf)]; congruence. }
      unfold storeAndAnswer.
      destruct apiKey as [[| c key] |];
        match goal with
        | |- context [update prisma userId ?d] =>
            destruct (update prisma userId d)
        end;
        cbn [fst snd status json saveFailed];
        (split; [split; [discriminate | intros Hex; destruct (Hno Hex)]
                | discriminate]).
    + cbn [fst snd status json saveFailed].
      split; [| discriminate].
      split; [discriminate |]. intros (u & p & Hd & Hcase).
      injection Hd as <- <-.
      destruct Hcase as [Hf | (_ & _ & Hf)]; congruence.
Qed.

Lemma orElse_nonempty (s d : jstring) : d ≠ [] → orElse s d ≠ [].
Proof. intros Hd. destruct s; [exact Hd | discriminate]. Qed.

(** X21.  In the personality built from the memories, no field is empty: a
    field is the text of its category, or [N/A] when that text is empty;
    the background always carries the three texts as they are, empty or
    not. *)
Theorem personality_fields memories :
  let p := buildPersonality memories in
  let texts := (ofCategory "story" "stories" memories,
                ofCategory "habit" "habits" memories,
                ofCategory "reaction" "reactions" memories) in
  stories p ≠ [] ∧ habits p ≠ [] ∧ reactions p ≠ []
  ∧ (texts.1.1 ≠ [] → stories p = texts.1.1)
  ∧ (texts.1.1 = [] → stories p = lit "N/A")
  ∧ (texts.1.2 ≠ [] → habits p = texts.1.2)
  ∧ (texts.1.2 = [] → habits p = lit "N/A")
  ∧ (texts.2 ≠ [] → reactions p = texts.2)
  ∧ (texts.2 = [] → reactions p = lit "N/A")
  ∧ background p
    = lit "This person's stories: " ++ texts.1.1
      ++ lit ". Their habits: " ++ texts.1.2
      ++ lit ". How they react: " ++ texts.2.
Proof.
  intros p texts. subst p texts. cbn [fst snd buildPersonality stories habits
    reactions background].
  assert (Hna : lit "N/A" ≠ []) by discriminate.
  repeat split; try (apply orElse_nonempty; exact Hna);
    try (intros Ht; destruct (ofCategory _ _ memories);
         [congruence | reflexivity]);
    try (intros ->; reflexivity).
Qed.

(** The memories the personality is built from. *)
Lemma filter_filter_implied {A : Type} (p q : A → bool) (l : list A) :
  (∀ x, p x = true → q x = true) →
  List.filter p (List.filter q l) = List.filter p l.
Proof.
  intros Hpq. induction l as [| x l IH]; [reflexivity |].
  cbn [List.filter]. destruct (q x) eqn:Hq.
  - cbn [List.filter]. rewrite IH. reflexivity.
  - rewrite IH. destruct (p x) eqn:Hp; [| reflexivity].
    rewrite (Hpq x Hp) in Hq. discriminate.
Qed.

Lemma filter_none {A : Type} (p : A → bool) (l : list A) :
  (∀ x, In x l → p x = false) → List.filter p l = [].
Proof.
  induction l as [| x l IH]; intros Hall; [reflexivity |].
  cbn [List.filter]. rewrite (Hall x (or_introl eq_refl)).
  apply IH. intros y Hy. apply Hall. right. exact Hy.
Qed.

Lemma inCategory_true (a b : string) (m : Memory) :
  strictEq (category m) (lit a) || strictEq (category m) (lit b) = true
  ↔ category m = lit a ∨ category m = lit b.
Proof.
  unfold strictEq. rewrite orb_true_iff, !bool_decide_eq_true. tauto.
Qed.

Lemma inCategory_false (a b : string) (m : Memory) :
  strictEq (category m) (lit a) || strictEq (category m) (lit b) = false
  ↔ category m ≠ lit a ∧ category m ≠ lit b.
Proof.
  unfold strictEq. rewrite orb_false_iff, !bool_decide_eq_false. tauto.
Qed.

(** X22.  Only the memories of the six categories count, in the order in
    which the database gave them.  Dropping every other memory from the
    list leaves the personality as it is.  The stories are the text of the
    categories [story] and [stories], the habits that of [habit] and
    [habits], the reactions that of [reaction] and [reactions].  For any
    pair of categories and any list, the text is empty for the empty list;
    a memory of another category in front changes nothing; a memory of one
    of the two in front puts its content first, alone when no memory of
    the pair follows and otherwise followed by a line break and the text
    of the rest. *)
Theorem personality_uses_six_categories memories :
  let counted (m : Memory) :=
    existsb (fun c => strictEq (category m) (lit c))
      ["story"; "stories"; "habit"; "habits"; "reaction"; "reactions"] in
  buildPersonality (List.filter counted memories) = buildPersonality memories
  ∧ (stories (buildPersonality memories)
     = orElse (ofCategory "story" "stories" memories) (lit "N/A")
     ∧ habits (buildPersonality memories)
       = orElse (ofCategory "habit" "habits" memories) (lit "N/A")
     ∧ reactions (buildPersonality memories)
       = orElse (ofCategory "reaction" "reactions" memories) (lit "N/A"))
  ∧ ∀ a b : string,
      ofCategory a b [] = []
      ∧ (∀ m : Memory,
           category m ≠ lit a → category m ≠ lit b →
           ofCategory a b (m :: memories) = ofCategory a b memories)
      ∧ (∀ m : Memory,
           category m = lit a ∨ category m = lit b →
           (∀ m', In m' memories →
                  category m' ≠ lit a ∧ category m' ≠ lit b) →
           ofCategory a b (m :: memories) = content m)
      ∧ (∀ m : Memory,
           category m = lit a ∨ category m = lit b →
           (∃ m', In m' memories
                  ∧ (category m' = lit a ∨ category m' = lit b)) →
           ofCategory a b (m :: memories)
           = content m ++ [10%N] ++ ofCategory a b memories).
Proof.
  intros counted. split; [| split].
  - unfold buildPersonality, ofCategory.
    rewrite !filter_filter_implied; [reflexivity | | |];
      intros x Hx; unfold counted; cbn [existsb];
      apply orb_true_iff in Hx as [Hx | Hx]; rewrite Hx;
      rewrite ?orb_true_r; reflexivity.
  - repeat split.
  - intros a b. split; [reflexivity |]. split; [| split].
    + intros m Ha Hb. unfold ofCategory. cbn [List.filter].
      rewrite (proj2 (inCategory_false a b m) (conj Ha Hb)). reflexivity.
    + intros m Hm Hnone. unfold ofCategory. cbn [List.filter].
      rewrite (proj2 (inCategory_true a b m) Hm).
      rewrite (filter_none _ memories); [reflexivity |].
      intros m' Hin. apply inCategory_false. apply Hnone. exact Hin.
    + intros m Hm (m' & Hin & Hm'). unfold ofCategory. cbn [List.filter].
      rewrite (proj2 (inCategory_true a b m) Hm). cbn [map].
      assert (Hfound : In m' (List.filter
                (fun m0 => strictEq (category m0) (lit a)
                           || strictEq (category m0) (lit b)) memories)).
      { apply List.filter_In. split; [exact Hin |].
        apply inCategory_true. exact Hm'. }
      destruct (List.filter _ memories) as [| m1 rest]; [destruct Hfound |].
      reflexivity.
Qed.

End Posting.

End RouteFacts.

(** The theorem at work: an identifier of UUID shape that is not the
    admin's, in a database whose lookup gives the empty string. *)
Lemma GET_status_witness :
  JS.lit "123e4567-e89b-12d3-a456-426614174000" ≠ Route.adminId
  ∧ fst (Route.GET (H := JS.plain_values)
           {| Route.findUnique := fun _ => JS.Done (Some (JS.Str []));
              Route.update := fun _ _ => None;
              Route.findMany := fun _ => JS.Done [] |}
           (JS.lit "2026-01-01T00:00:00.000Z")
           (Some (JS.lit "123e4567-e89b-12d3-a456-426614174000")))
    = {| Route.status := 404;
         Route.body :=
           JS.JObj [("error", JS.JStr (JS.lit "User not found"))] |}.
Proof.
  destruct (RouteFacts.GET_status (H := JS.plain_values)
              {| Route.findUnique := fun _ => JS.Done (Some (JS.Str []));
                 Route.update := fun _ _ => None;
                 Route.findMany := fun _ => JS.Done [] |}
              (JS.lit "2026-01-01T00:00:00.000Z")
              (JS.lit "123e4567-e89b-12d3-a456-426614174000"))
    as [_ Hother]; [reflexivity |].
  assert (Hne : JS.lit "123e4567-e89b-12d3-a456-426614174000" ≠ Route.adminId)
    by discriminate.
  split; [exact Hne |].
  destruct (Hother Hne) as (_ & Hfalsy & _).
  apply (Hfalsy (JS.Str [])); reflexivity.
Defined.

(** The theorem at work: a user saves personality data. *)
Lemma POST_direct_save_witness :
  snd (Route.POST (H := JS.plain_values)
         {| Route.findUnique := fun _ => JS.Done None;
            Route.update := fun _ _ => None;
            Route.findMany := fun _ => JS.Done [] |}
         None
         (JS.Done (JS.Str (JS.lit "user-1"), JS.Str (JS.lit "calm"))))
  = [Route.Update (JS.Str (JS.lit "user-1"))
       (JS.JVal (JS.Str (JS.lit "calm")))].
Proof.
  destruct (RouteFacts.POST_direct_save (H := JS.plain_values)
              {| Route.findUnique := fun _ => JS.Done None;
                 Route.update := fun _ _ => None;
                 Route.findMany := fun _ => JS.Done [] |}
              None (JS.Str (JS.lit "user-1")) (JS.Str (JS.lit "calm")))
    as [_ Hother]; [reflexivity | reflexivity |].
  apply Hother. discriminate.
Defined.

(** The theorem at work: the admin user, with one memory and no API key. *)
Lemma POST_generates_and_stores_witness :
  snd (Route.POST (H := JS.plain_values)
         {| Route.findUnique := fun _ => JS.Done None;
            Route.update := fun _ _ => None;
            Route.findMany := fun _ =>
              JS.Done [{| Route.category := JS.lit "story";
                          Route.content := JS.lit "I test" |}] |}
         None
         (JS.Done (JS.Str Route.adminId, JS.Undefined)))
  = [Route.FindMany (JS.Str Route.adminId);
     Route.Update (JS.Str Route.adminId) Route.mockPersonality].
Proof.
  destruct (RouteFacts.POST_generates_and_stores (H := JS.plain_values)
              {| Route.findUnique := fun _ => JS.Done None;
                 Route.update := fun _ _ => None;
                 Route.findMany := fun _ =>
                   JS.Done [{| Route.category := JS.lit "story";
                               Route.content := JS.lit "I test" |}] |}
              None (JS.Str Route.adminId) JS.Undefined
              {| Route.category := JS.lit "story";
                 Route.content := JS.lit "I test" |} [])
    as [Hmock _]; [reflexivity | reflexivity | reflexivity |].
  apply Hmock. left. reflexivity.
Defined.

(** ** The search of the clone browser *)

Module BrowserFacts.

Import JS Browser.

Section Search.

Variable toLowerCase : jstring → jstring.

Lemma includes_nil (hay : jstring) : includes [] hay = true.
Proof. destruct hay; reflexivity. Qed.

Lemma filter_all {A : Type} (p : A → bool) (l : list A) :
  (∀ x, p x = true) → List.filter p l = l.
Proof.
  intros Hp. induction l as [| x l IH]; [reflexivity |].
  cbn [List.filter]. rewrite Hp, IH. reflexivity.
Qed.

Lemma filter_sublist {A : Type} (p : A → bool) (l : list A) :
  sublist (List.filter p l) l.
Proof.
  induction l as [| x l IH]; [constructor |].
  cbn [List.filter]. destruct (p x); constructor; exact IH.
Qed.

(** X23.  The search of the browser.  The clones shown are clones of the
    list, in their order, each shown when its user name or its name
    contains the query, both taken in lower case; a clone without name is
    found through its user name alone; queries with the same lower-case
    form show the same clones; and a query whose lower-case form is empty
    (the empty query) shows every clone. *)
Theorem search_shows_matching_clones (clones : list Clone) :
  (∀ q, sublist (filteredClones toLowerCase clones q) clones)
  ∧ (∀ q c, In c (filteredClones toLowerCase clones q)
            ↔ In c clones
              ∧ (includes (toLowerCase q) (toLowerCase (username c)) = true
                 ∨ ∃ nm, name c = Some nm
                         ∧ includes (toLowerCase q) (toLowerCase nm) = true))
  ∧ (∀ q q', toLowerCase q = toLowerCase q' →
             filteredClones toLowerCase clones q
             = filteredClones toLowerCase clones q')
  ∧ (∀ q, toLowerCase q = [] → filteredClones toLowerCase clones q = clones).
Proof.
  split; [| split; [| split]].
  - intros q. apply filter_sublist.
  - intros q c. unfold filteredClones. rewrite filter_In. unfold matches.
    rewrite orb_true_iff. split.
    + intros [Hin [Hu | Hn]]; split; auto.
      destruct (name c) as [nm |]; [| discriminate]. right. eauto.
    + intros [Hin [Hu | (nm & Hnm & Hn)]]; split; auto.
      rewrite Hnm. auto.
  - intros q q' Hq. unfold filteredClones.
    apply filter_ext. intros c. unfold matches. rewrite Hq. reflexivity.
  - intros q Hq. unfold filteredClones. apply filter_all.
    intros c. unfold matches. rewrite Hq, includes_nil. reflexivity.
Qed.

End Search.

End BrowserFacts.

(** ** The photo uploader *)

Module UploaderFacts.

Import JS Uploader.

Section Camera.

Variables (Blob Face : Type).

Implicit Types (st : UState Blob) (ev : CameraEvent Blob)
  (b : Booth Blob) (cb : Callback Blob).

Lemma setSlot_in_range {A : Type} (i : nat) (x : A) (l : list (option A)) :
  i < length l → setSlot i x l = <[i := Some x]> l.
Proof. intros Hi. unfold setSlot. rewrite decide_True by exact Hi. reflexivity. Qed.

Lemma stopCamera_steady st : steady st → steady (stopCamera st).
Proof.
  intros (Hlen & Hidx & Hmode). unfold stopCamera.
  destruct (stream st) eqn:Hs; [| unfold steady; rewrite Hs; auto].
  unfold steady. cbn. auto with lia.
Qed.

Lemma stopCamera_photos st : photos (stopCamera st) = photos st.
Proof. unfold stopCamera. destruct (stream st); reflexivity. Qed.

Lemma named_setSlot (i : nat) (blob0 : Blob) (slots : list (option (File Blob))) :
  i < length slots → named slots →
  named (setSlot i {| index := i; blob := blob0 |} slots).
Proof.
  intros Hi Hnamed k f. rewrite setSlot_in_range by exact Hi.
  destruct (decide (i = k)) as [<- | Hne].
  - rewrite list_lookup_insert_eq by exact Hi. intros Hf.
    injection Hf as <-. reflexivity.
  - rewrite list_lookup_insert_ne by exact Hne. apply Hnamed.
Qed.

(** The state after the callback of a shot whose closure was in order. *)
Lemma photoTaken_steady cb st :
  settled cb → steady st → named (photos st) →
  steady (photoTaken cb st) ∧ named (photos (photoTaken cb st)).
Proof.
  intros (Hlen & Hidx & Hnamed) Hst Hn. pose proof Hst as (Hl & Hi & Hm).
  unfold photoTaken. destruct (handed cb) as [blob0 |]; [| auto].
  cbn [photos uploading progress processingFace contexts captureMode
       currentPhotoIndex stream].
  assert (Hslots : length (setSlot (seenIndex cb)
                             {| index := seenIndex cb; blob := blob0 |}
                             (seenPhotos cb)) = 5).
  { rewrite setSlot_in_range by lia. rewrite length_insert. exact Hlen. }
  assert (Hnames : named (setSlot (seenIndex cb)
                            {| index := seenIndex cb; blob := blob0 |}
                            (seenPhotos cb))).
  { apply named_setSlot; [lia | exact Hnamed]. }
  destruct (seenIndex cb <? 4)%nat eqn:Hlt.
  - apply Nat.ltb_lt in Hlt. unfold steady. cbn. auto with lia.
  - split.
    + apply stopCamera_steady. unfold steady. cbn. auto.
    + rewrite stopCamera_photos. exact Hnames.
Qed.

Lemma in_delete {A : Type} (i : nat) (x : A) (l : list A) :
  In x (delete i l) → In x l.
Proof.
  revert i. induction l as [| y l IH]; intros [| i]; cbn; auto.
  intros [-> | Hin]; eauto.
Qed.

Lemma in_lookup {A : Type} (i : nat) (x : A) (l : list A) :
  l !! i = Some x → In x l.
Proof.
  revert i. induction l as [| y l IH]; intros [| i]; cbn;
    [discriminate | discriminate | |].
  - intros Hx. injection Hx as <-. auto.
  - intros Hx. right. exact (IH i Hx).
Qed.

(** The booth is in order: the component, its slots, and what every
    waiting callback saw. *)
Lemma camera_sound ev b :
  steady (ui b) → named (photos (ui b)) →
  (∀ cb, In cb (waiting b) → settled cb) →
  steady (ui (camera Face ev b))
  ∧ named (photos (ui (camera Face ev b)))
  ∧ ∀ cb, In cb (waiting (camera Face ev b)) → settled cb.
Proof.
  intros Hst Hn Hw. pose proof Hst as (Hlen & Hidx & Hmode).
  destruct ev as [[|] | shot | i |]; cbn [camera startCamera fst ui waiting].
  - split; [unfold steady; cbn; auto with lia | auto].
  - auto.
  - unfold capturePhoto.
    destruct (mounted shot); cbn [negb snd]; [| auto].
    destruct (readyState shot <? 2)%nat; cbn [snd]; [auto |].
    destruct (hasContext shot); cbn [negb snd ui waiting]; [| auto].
    split; [exact Hst |]. split; [exact Hn |].
    intros cb Hin. apply in_app_or in Hin as [Hin | [<- | []]]; [auto |].
    unfold settled. cbn. auto.
  - destruct (waiting b !! i) as [cb |] eqn:Hcb; cbn [ui waiting]; [| auto].
    destruct (photoTaken_steady cb (ui b)) as [Hst' Hn']; auto.
    { apply Hw. exact (in_lookup i cb _ Hcb). }
    split; [exact Hst' |]. split; [exact Hn' |].
    intros cb' Hin. apply Hw. exact (in_delete i cb' _ Hin).
  - split; [apply stopCamera_steady; exact Hst |].
    rewrite stopCamera_photos. auto.
Qed.

(** X24.  Whatever happens around the camera, in whatever order (the
    stream granted or refused; clicks on the capture button, good or
    failed; the blob of a click arriving at any later time, before or after
    other clicks and in any order; stop), the component keeps its five
    slots, the index of the next photo stays among them, capture mode is on
    exactly while the stream is held, and every photo sits in the slot its
    name gives; what each callback still waiting saw is in the same
    order. *)
Theorem camera_keeps_five_slots (evs : list (CameraEvent Blob)) b :
  length (photos (ui b)) = 5 →
  (currentPhotoIndex (ui b) ≤ 4)%nat →
  captureMode (ui b) = stream (ui b) →
  (∀ i f, photos (ui b) !! i = Some (Some f) → index f = i) →
  (∀ cb, In cb (waiting b) →
         length (seenPhotos cb) = 5 ∧ (seenIndex cb ≤ 4)%nat
         ∧ ∀ i f, seenPhotos cb !! i = Some (Some f) → index f = i) →
  let b' := fold_left (fun s ev => camera Face ev s) evs b in
  length (photos (ui b')) = 5
  ∧ (currentPhotoIndex (ui b') ≤ 4)%nat
  ∧ captureMode (ui b') = stream (ui b')
  ∧ (∀ i f, photos (ui b') !! i = Some (Some f) → index f = i)
  ∧ ∀ cb, In cb (waiting b') →
          length (seenPhotos cb) = 5 ∧ (seenIndex cb ≤ 4)%nat
          ∧ ∀ i f, seenPhotos cb !! i = Some (Some f) → index f = i.
Proof.
  intros Hlen Hidx Hmode Hn Hw.
  assert (Hst : steady (ui b)) by (unfold steady; auto).
  clear Hlen Hidx Hmode. revert b Hst Hn Hw.
  induction evs as [| ev evs IH]; intros b Hst Hn Hw b'; subst b'.
  - destruct Hst as (? & ? & ?). cbn [fold_left]. auto 10.
  - cbn [fold_left].
    destruct (camera_sound ev b Hst Hn Hw) as (Hst' & Hn' & Hw').
    exact (IH (camera Face ev b) Hst' Hn' Hw').
Qed.

(** X25.  Five good shots after a granted start, each blob arriving before
    the next click, fill the five slots, in order, with the photos taken,
    whatever the slots held before; the camera is then stopped, the index
    is back at the first slot, no callback is waiting and no photo is
    missing for the submission.  The arrival before the next click matters:
    when a second click comes before the blob of the first, both photos go
    to the first slot, the second over the first, the other slots stay as
    they were and the index moves on by one only. *)
Theorem five_shots_fill_every_slot st (b0 b1 b2 b3 b4 : Blob) :
  length (photos st) = 5 →
  let idle := {| ui := st; waiting := [] |} in
  let inTurn :=
    fold_left (fun s ev => camera Face ev s)
      [Start true;
       Capture (goodShot b0); Deliver 0; Capture (goodShot b1); Deliver 0;
       Capture (goodShot b2); Deliver 0; Capture (goodShot b3); Deliver 0;
       Capture (goodShot b4); Deliver 0]
      idle in
  let hasty :=
    fold_left (fun s ev => camera Face ev s)
      [Start true; Capture (goodShot b0); Capture (goodShot b1);
       Deliver 0; Deliver 0]
      idle in
  (photos (ui inTurn)
   = [Some {| index := 0; blob := b0 |}; Some {| index := 1; blob := b1 |};
      Some {| index := 2; blob := b2 |}; Some {| index := 3; blob := b3 |};
      Some {| index := 4; blob := b4 |}]
   ∧ captureMode (ui inTurn) = false ∧ stream (ui inTurn) = false
   ∧ currentPhotoIndex (ui inTurn) = 0
   ∧ waiting inTurn = []
   ∧ missingPhoto (ui inTurn) = false)
  ∧ (photos (ui hasty) = <[0 := Some {| index := 0; blob := b1 |}]> (photos st)
     ∧ currentPhotoIndex (ui hasty) = 1
     ∧ captureMode (ui hasty) = true
     ∧ waiting hasty = []).
Proof.
  intros Hlen idle inTurn hasty. subst idle inTurn hasty.
  destruct st as [ph up pr pf ctx cm idx sm]. cbn [photos] in Hlen.
  do 5 (destruct ph as [| ? ph]; [discriminate |]).
  destruct ph; [| discriminate].
  repeat split.
Qed.

End Camera.

Section Submit.

Context {Value : Type} `{Values Value}.
Variables (Blob Landmark Contours Face : Type).
Variable newError : jstring → JsError Value.

Implicit Types (st : UState Blob)
  (sv : Services Value Blob Landmark Contours Face) (userId : jstring).

Ltac no_success :=
  let Hlen := fresh "Hlen" in
  intros (_ & _ & ? & ? & ? & ? & ? & ? & Hlen & ? & ? & ?);
  first [congruence
        | match goal with
          | Hlt : (length ?l <? 468)%nat = true |- _ =>
              apply Nat.ltb_lt in Hlt;
              match type of Hlen with
              | (468 ≤ length ?l')%nat =>
                  assert (l' = l) by congruence; subst; lia
              end
          end].

Ltac no_event Hin :=
  unfold failed, failedAlert in Hin; cbn [snd app In] in Hin;
  repeat (destruct Hin as [Hin | Hin]; [discriminate |]); destruct Hin.

(** X26.  A submission calls back [onComplete] exactly when every step went
    through; it then leaves the upload flag on until the pause is over, with
    the progress at 100.  The face is uploaded only for the user of the
    component, with the contexts typed in, and only after the face mesh was
    ready, found at least 468 landmarks, and the mock face was fetched and
    fitted. *)
Theorem handleSubmit_completes_iff sv userId st :
  let run := handleSubmit newError sv userId st in
  ((∃ u, In (OnCompleteLater u) (snd run)) ↔ submitSucceeds sv userId st)
  ∧ (submitSucceeds sv userId st →
     In (OnCompleteLater userId) (snd run)
     ∧ uploading (fst run) = true ∧ progress (fst run) = 100
     ∧ processingFace (fst run) = false
     ∧ uploading (completed (fst run)) = false)
  ∧ (∀ u face ctx, In (PostUpdateUser u face ctx) (snd run) →
       u = userId ∧ ctx = contexts st
       ∧ missingPhoto st = false ∧ isReady sv = true
       ∧ ∃ result lms mock,
           processFaceImages sv (validPhotos st) = Done (Some result)
           ∧ landmarks result = Some lms
           ∧ (468 ≤ length lms)%nat
           ∧ fetchMockFace sv = Done mock
           ∧ personalise sv lms mock = Done face).
Proof.
  intros run. subst run. unfold handleSubmit, submitSucceeds.
  destruct (missingPhoto st) eqn:Hmiss.
  { cbn [fst snd]. split; [split |].
    - intros [u [Hin | []]]. discriminate.
    - intros (Hf & _). discriminate.
    - split; [intros (Hf & _); discriminate |].
      intros u face ctx [Hin | []]. discriminate. }
  destruct (isReady sv) eqn:Hready; cbn [negb].
  2:{ split; [split |].
      - intros [u Hin]. no_event Hin.
      - intros (_ & Hf & _). discriminate.
      - split; [intros (_ & Hf & _); discriminate |].
        intros u face ctx Hin. no_event Hin. }
  destruct (processFaceImages sv (validPhotos st)) as [[result |] | e]
    eqn:Hproc.
  2:{ split; [split |].
      - intros [u Hin]. no_event Hin.
      - no_success.
      - split; [no_success |]. intros u face ctx Hin. no_event Hin. }
  2:{ split; [split |].
      - intros [u Hin]. no_event Hin.
      - no_success.
      - split; [no_success |]. intros u face ctx Hin. no_event Hin. }
  destruct (landmarks result) as [lms |] eqn:Hlms.
  2:{ split; [split |].
      - intros [u Hin]. no_event Hin.
      - no_success.
      - split; [no_success |]. intros u face ctx Hin. no_event Hin. }
  destruct (length lms <? 468)%nat eqn:Hlt.
  { split; [split |].
    - intros [u Hin]. no_event Hin.
    - no_success.
    - split; [no_success |]. intros u face ctx Hin. no_event Hin. }
  apply Nat.ltb_ge in Hlt.
  destruct (fetchMockFace sv) as [mock | e] eqn:Hfetch.
  2:{ split; [split |].
      - intros [u Hin]. no_event Hin.
      - no_success.
      - split; [no_success |]. intros u face ctx Hin. no_event Hin. }
  destruct (personalise sv lms mock) as [face0 | e] eqn:Hpers.
  2:{ split; [split |].
      - intros [u Hin]. no_event Hin.
      - no_success.
      - split; [no_success |]. intros u face ctx Hin. no_event Hin. }
  destruct (postUpdateUser sv userId face0 (contexts st)) as [e |] eqn:Hpost.
  - split; [split |].
    + intros [u Hin]. no_event Hin.
    + no_success.
    + split; [no_success |]. intros u face ctx Hin.
      unfold failed, failedAlert in Hin. cbn [snd app In] in Hin.
      destruct Hin as [Hin | [Hin | [Hin | [Hin | []]]]]; try discriminate.
      injection Hin as <- <- <-.
      repeat split. exists result, lms, mock. auto.
  - cbn [fst snd]. split; [split |].
    + intros _. repeat split. exists result, lms, mock, face0. auto 10.
    + intros _. exists userId. cbn [In]. auto.
    + split.
      * intros _. cbn [In]. repeat split; auto.
      * intros u face ctx Hin. cbn [In] in Hin.
        destruct Hin as [Hin | [Hin | [Hin | [Hin | []]]]]; try discriminate.
        injection Hin as <- <- <-.
        repeat split. exists result, lms, mock. auto.
Qed.

(** X27.  A submission that does not go through.  With a slot still empty
    it only asks for the five photos: the state is untouched and nothing is
    called.  With all photos there, any later failure (face mesh not ready,
    no face or too few landmarks found, a call that throws, an upload that
    is refused) ends with the failure alert as the last thing shown, the
    upload and processing flags off again, and no call back; the photos and
    the contexts are left as they are in every case. *)
Theorem handleSubmit_failure sv userId st :
  let run := handleSubmit newError sv userId st in
  (missingPhoto st = true →
   run = (st, [Alert (lit "Please capture or upload all 5 photos")]))
  ∧ (missingPhoto st = false → ¬ submitSucceeds sv userId st →
     uploading (fst run) = false ∧ processingFace (fst run) = false
     ∧ (∃ e before, snd run = before ++ [failedAlert e])
     ∧ ∀ u, ¬ In (OnCompleteLater u) (snd run))
  ∧ photos (fst run) = photos st
  ∧ contexts (fst run) = contexts st.
Proof.
  intros run.
  pose proof (handleSubmit_completes_iff sv userId st) as (Hiff & _ & _).
  fold run in Hiff. split; [| split].
  - intros Hmiss. subst run. unfold handleSubmit. rewrite Hmiss. reflexivity.
  - intros Hmiss Hnot.
    assert (Hnone : ∀ u, ¬ In (OnCompleteLater u) (snd run)).
    { intros u Hin. apply Hnot, Hiff. eauto. }
    subst run. unfold handleSubmit in *. rewrite Hmiss in *.
    destruct (isReady sv); cbn [negb] in *;
      [| unfold failed; cbn [fst snd]; eauto 10].
    destruct (processFaceImages sv (validPhotos st)) as [[result |] | e];
      [| unfold failed; cbn [fst snd]; eauto 10
       | unfold failed; cbn [fst snd]; eauto 10].
    destruct (landmarks result) as [lms |];
      [| unfold failed; cbn [fst snd]; eauto 10].
    destruct (length lms <? 468)%nat;
      [unfold failed; cbn [fst snd]; eauto 10 |].
    destruct (fetchMockFace sv) as [mock | e];
      [| unfold failed; cbn [fst snd]; eauto 10].
    destruct (personalise sv lms mock) as [face0 | e];
      [| unfold failed; cbn [fst snd]; eauto 10].
    destruct (postUpdateUser sv userId face0 (contexts st)) as [e |];
      [unfold failed; cbn [fst snd]; eauto 10 |].
    exfalso. apply (Hnone userId). cbn [snd In]. auto.
  - subst run. unfold handleSubmit.
    destruct (missingPhoto st); [auto |].
    destruct (isReady sv); cbn [negb]; [| auto].
    destruct (processFaceImages sv (validPhotos st)) as [[result |] | e];
      [| auto | auto].
    destruct (landmarks result) as [lms |]; [| auto].
    destruct (length lms <? 468)%nat; [auto |].
    destruct (fetchMockFace sv) as [mock | e]; [| auto].
    destruct (personalise sv lms mock) as [face0 | e]; [| auto].
    destruct (postUpdateUser sv userId face0 (contexts st)); auto.
Qed.

End Submit.

End UploaderFacts.

(** The theorem at work: two clicks whose blobs arrive in the other order,
    then the camera is stopped. *)
Lemma camera_keeps_five_slots_witness :
  length
    (Uploader.photos
       (Uploader.ui
          (fold_left (fun s ev => Uploader.camera unit ev s)
             [Uploader.Start true; Uploader.Capture (Uploader.goodShot tt);
              Uploader.Capture (Uploader.goodShot tt);
              Uploader.Deliver 1; Uploader.Deliver 0; Uploader.Stop]
             {| Uploader.ui := Uploader.initialState unit;
                Uploader.waiting := [] |})))
  = 5.
Proof.
  destruct (UploaderFacts.camera_keeps_five_slots unit unit
              [Uploader.Start true; Uploader.Capture (Uploader.goodShot tt);
               Uploader.Capture (Uploader.goodShot tt);
               Uploader.Deliver 1; Uploader.Deliver 0; Uploader.Stop]
              {| Uploader.ui := Uploader.initialState unit;
                 Uploader.waiting := [] |}) as (Hlen & _);
    [reflexivity | cbn; lia | reflexivity
    | intros i f Hf; do 5 (destruct i as [| i]; [discriminate |]);
      discriminate
    | intros cb []
    |].
  exact Hlen.
Defined.

(** The theorem at work: five shots from the initial state. *)
Lemma five_shots_fill_every_slot_witness :
  Uploader.missingPhoto
    (Uploader.ui
       (fold_left (fun s ev => Uploader.camera unit ev s)
          [Uploader.Start true;
           Uploader.Capture (Uploader.goodShot tt); Uploader.Deliver 0;
           Uploader.Capture (Uploader.goodShot tt); Uploader.Deliver 0;
           Uploader.Capture (Uploader.goodShot tt); Uploader.Deliver 0;
           Uploader.Capture (Uploader.goodShot tt); Uploader.Deliver 0;
           Uploader.Capture (Uploader.goodShot tt); Uploader.Deliver 0]
          {| Uploader.ui := Uploader.initialState unit;
             Uploader.waiting := [] |}))
  = false.
Proof.
  destruct (UploaderFacts.five_shots_fill_every_slot unit unit
              (Uploader.initialState unit) tt tt tt tt tt)
    as ((_ & _ & _ & _ & _ & Hall) & _); [reflexivity |].
  exact Hall.
Defined.
